(** * Authentication token lifecycle of simple-swagger-backend

    A shallow embedding of the credential store ([models/User.js]), the
    token helpers ([utils/tokenUtils.js]), the auth routes
    ([routes/auth/index.js]) and the auth middleware ([middleware/auth.js]),
    together with the properties of the token lifecycle.

    Conventions.
    - The module-level array [users] is threaded explicitly: each operation
      takes the array and returns the new one.  [Array.prototype.find] hands
      out a reference to the first matching element, and the source mutates
      that element in place; [mutate_first] is that in-place update.
    - User ids are the numbers [users.length + 1] assigned by [User.create];
      on such numbers [parseInt] is the identity, so ids are [nat].  Where
      an id comes from outside, [parseInt] is applied explicitly
      ([ParseInt], [findById_number]).
    - Request fields are strings or missing; [Untyped] has the login route
      for a password of any JSON type.
    - A request is served in one turn, except that a registration awaits
      its hash: [Overlap] has the two halves and the runs in which other
      requests come in between.
    - The two external libraries, [bcrypt] and [jsonwebtoken], are interfaces
      ([Bcrypt], [Jwt]); the clock that [jsonwebtoken] reads is an explicit
      argument [now], in seconds, read once per request. *)

From Stdlib Require Import List String Ascii Arith NArith Bool Lia.
Import ListNotations.
Open Scope string_scope.

(** ** JavaScript preliminaries *)

(** Outcome of a call that may throw. *)
Inductive result (E A : Type) : Type :=
| Return (a : A)
| Throw (e : E).
Arguments Return {E A} a.
Arguments Throw {E A} e.

(** [!s] for a request field that is a string or missing ([undefined]):
    only the missing field and the empty string are falsy. *)
Definition falsy (field : option string) : bool :=
  match field with
  | None => true
  | Some s => s =? ""
  end.

(** [arr.push(x)] and [arr.shift()] on the contents of an array. *)
Definition push {A} (arr : list A) (x : A) : list A := arr ++ [x].
Definition shift {A} (arr : list A) : list A := tl arr.

(** [arr.includes(x)] on an array of strings. *)
Definition includes (arr : list string) (x : string) : bool :=
  existsb (fun t => t =? x) arr.

(** ** bcrypt *)

(** [bcrypt.hash(password, rounds)] draws a fresh salt, which is an input
    here; [bcrypt.compare(plain, digest)] answers with a boolean. *)
Class Bcrypt := {
  bcrypt_hash : string -> nat -> string -> string;
  bcrypt_compare : string -> string -> bool
}.

(** ** models/User.js *)

Module User.

Record user := mkUser {
  id : nat;
  username : string;
  email : string;
  password : string;
  refreshTokens : list string
}.

(** The projection [{id, username, email}] that leaves the store. *)
Record publicUser := mkPublic {
  pub_id : nat;
  pub_username : string;
  pub_email : string
}.

Definition public (u : user) : publicUser :=
  mkPublic (id u) (username u) (email u).

(** [const users = []] *)
Definition store := list user.
Definition empty : store := [].

Definition set_refreshTokens (u : user) (toks : list string) : user :=
  mkUser (id u) (username u) (email u) (password u) toks.

(** In-place update of the element [users.find(p)] refers to. *)
Fixpoint mutate_first (p : user -> bool) (f : user -> user) (users : store) : store :=
  match users with
  | [] => []
  | u :: rest => if p u then f u :: rest else u :: mutate_first p f rest
  end.

Definition findByCredentials (users : store) (usernameOrEmail : string) : option user :=
  find (fun u => (username u =? usernameOrEmail) || (email u =? usernameOrEmail)) users.

(** The search of [findById], for the number [i] that its [parseInt(id)]
    yields; [findById_number] below is [findById] with that [parseInt]. *)
Definition findById (users : store) (i : nat) : option user :=
  find (fun u => (id u =? i)%nat) users.

(** [create] when no other request is served while it awaits the hash;
    its two halves, around the [await], are in [Overlap]. *)
Definition create `{Bcrypt} (users : store) (username' email' password' salt : string)
  : result string (store * publicUser) :=
  match find (fun u => (username u =? username') || (email u =? email')) users with
  | Some _ => Throw "User already exists"
  | None =>
      let hashedPassword := bcrypt_hash password' 10 salt in
      let id' := List.length users + 1 in
      let u := mkUser id' username' email' hashedPassword [] in
      Return (push users u, public u)
  end.

Definition comparePassword `{Bcrypt} (plainPassword hashedPassword : string) : bool :=
  bcrypt_compare plainPassword hashedPassword.

Definition addRefreshToken (users : store) (userId : nat) (token : string) : store :=
  match findById users userId with
  | Some _ =>
      mutate_first (fun u => (id u =? userId)%nat)
        (fun u =>
           let toks := if (5 <=? List.length (refreshTokens u))%nat
                       then shift (refreshTokens u)
                       else refreshTokens u in
           set_refreshTokens u (push toks token))
        users
  | None => users
  end.

Definition removeRefreshToken (users : store) (userId : nat) (token : string) : store :=
  match findById users userId with
  | Some _ =>
      mutate_first (fun u => (id u =? userId)%nat)
        (fun u => set_refreshTokens u
                    (filter (fun t => negb (t =? token)) (refreshTokens u)))
        users
  | None => users
  end.

Definition hasRefreshToken (users : store) (userId : nat) (token : string) : bool :=
  match findById users userId with
  | Some u => includes (refreshTokens u) token
  | None => false
  end.

Definition getAll (users : store) : list publicUser := map public users.

End User.

(** ** parseInt *)

(** Numbers are the non-negative integers; [None] stands for [NaN] and for
    a negative result, which is no id.  [parseInt] of a number reads its
    decimal string, so it gives the number back as long as that string is
    the plain numeral, as it is for every safe integer; from 1e21 on the
    string is in exponent notation and only its leading digits are read. *)
Definition safe_integer (n : nat) : Prop :=
  (N.of_nat n < 9007199254740992)%N.

Class ParseInt := {
  parseInt_string : string -> option nat;
  parseInt_number : nat -> option nat;
  parseInt_safe : forall n, safe_integer n -> parseInt_number n = Some n
}.

(** [User.findById(id)] for any number [id]: [User.findById] above is its
    search, for the number [parseInt(id)] yields. *)
Definition findById_number `{ParseInt} (users : User.store) (id : nat)
  : option User.user :=
  match parseInt_number id with
  | Some n => User.findById users n
  | None => None
  end.

(** Ids count up from 1 in the order of the array. *)
Definition ids_in_order (users : User.store) : Prop :=
  map User.id users = seq 1 (List.length users).

(** ** jsonwebtoken and config/jwt.js *)

(** The errors [jwt.verify] throws on the tokens of this program, by their
    [name] (no token carries a not-before claim). *)
Inductive jwt_error := TokenExpiredError | JsonWebTokenError.

Definition error_name (e : jwt_error) : string :=
  match e with
  | TokenExpiredError => "TokenExpiredError"
  | JsonWebTokenError => "JsonWebTokenError"
  end.

(** The decoded payload of a token signed from [{ userId }] with [expiresIn]. *)
Record payload := mkPayload {
  userId : nat;
  iat : nat;
  exp : nat
}.

(** [jwt_sign userId secret expiresIn now] is [jwt.sign({ userId }, secret,
    { expiresIn })] at clock reading [now]; [None] when it throws.
    [jwt_signed_payload token secret] is the payload of a well-formed token
    whose signature verifies under [secret]; it does not read the clock.
    The laws are what the program relies on:
    - signing throws exactly for a falsy secret, and a token is never empty;
    - a token carries the subject, the time of issue and the expiry
      [iat + expiresIn], under the secret that signed it;
    - under any other secret its signature does not verify. *)
Class Jwt := {
  jwt_sign : nat -> string -> nat -> nat -> option string;
  jwt_signed_payload : string -> string -> option payload;
  jwt_sign_secret : forall uid k ttl t0,
    jwt_sign uid k ttl t0 = None <-> k = "";
  jwt_sign_truthy : forall uid k ttl t0 tok,
    jwt_sign uid k ttl t0 = Some tok -> tok <> "";
  jwt_payload_sign : forall uid k ttl t0 tok,
    jwt_sign uid k ttl t0 = Some tok ->
    jwt_signed_payload tok k = Some (mkPayload uid t0 (t0 + ttl));
  jwt_payload_other_secret : forall uid k ttl t0 tok k',
    jwt_sign uid k ttl t0 = Some tok ->
    k' <> k ->
    jwt_signed_payload tok k' = None
}.

(** [jwt.verify(token, secret)] at clock reading [now]: the signature is
    checked first, the expiry ([now >= exp]) after it. *)
Definition jwt_verify `{Jwt} (token secret : string) (now : nat)
  : result jwt_error payload :=
  match jwt_signed_payload token secret with
  | None => Throw JsonWebTokenError
  | Some decoded =>
      if (exp decoded <=? now)%nat then Throw TokenExpiredError
      else Return decoded
  end.

(** [config/jwt.js].  A secret is read from the environment; an unset
    variable and an empty one are both falsy for [jsonwebtoken] and are
    the empty string here.  [expiresIn] is the time span in seconds
    (['15m'] is 900, ['7d'] is 604800). *)
Record tokenConfig := mkTokenConfig {
  secret : string;
  expiresIn : nat
}.

Record jwtConfig := mkJwtConfig {
  accessToken : tokenConfig;
  refreshToken : tokenConfig
}.

(** ** utils/tokenUtils.js *)

Module TokenUtils.

(** The object [{ valid, expired, userId }]; [userId] is [null] exactly
    when [valid] is false. *)
Record verification := mkVerification {
  valid : bool;
  expired : bool;
  v_userId : option nat
}.

Section WithJwt.
Context `{Jwt}.
Variable jwtConfig : jwtConfig.

Definition generateAccessToken (userId : nat) (now : nat) : option string :=
  jwt_sign userId
    (secret (accessToken jwtConfig))
    (expiresIn (accessToken jwtConfig)) now.

Definition generateRefreshToken (users : User.store) (userId : nat) (now : nat)
  : option (string * User.store) :=
  match jwt_sign userId
          (secret (refreshToken jwtConfig))
          (expiresIn (refreshToken jwtConfig)) now with
  | Some refreshToken =>
      Some (refreshToken, User.addRefreshToken users userId refreshToken)
  | None => None
  end.

Definition verifyAccessToken (token : string) (now : nat) : verification :=
  match jwt_verify token (secret (accessToken jwtConfig)) now with
  | Return decoded => mkVerification true false (Some (userId decoded))
  | Throw error =>
      mkVerification false (error_name error =? "TokenExpiredError") None
  end.

Definition verifyRefreshToken (users : User.store) (token : string) (now : nat)
  : verification :=
  match jwt_verify token (secret (refreshToken jwtConfig)) now with
  | Return decoded =>
      let isValidToken := User.hasRefreshToken users (userId decoded) token in
      if negb isValidToken
      then mkVerification false false None
      else mkVerification true false (Some (userId decoded))
  | Throw error =>
      mkVerification false (error_name error =? "TokenExpiredError") None
  end.

End WithJwt.

End TokenUtils.

(** ** HTTP responses *)

(** The [data] member of a success body. *)
Inductive data :=
| NoData
| UserData (user : User.publicUser)
| LoginData (accessToken refreshToken : string) (user : User.publicUser)
| AccessData (accessToken : string).

(** [res.status(statusCode).json({ status, message, data })]. *)
Record response := mkResponse {
  statusCode : nat;
  status : string;
  message : option string;
  body_data : data
}.

Definition error (code : nat) (msg : string) : response :=
  mkResponse code "error" (Some msg) NoData.

Definition internal_error : response := error 500 "Internal server error".

(** The string in a request field once [falsy] has excluded the missing one. *)
Definition str (field : option string) : string :=
  match field with
  | Some s => s
  | None => ""
  end.

(** [s.split(sep)] for a one-character separator. *)
Fixpoint split (sep : ascii) (s : string) : list string :=
  match s with
  | EmptyString => [""]
  | String c rest =>
      if Ascii.eqb c sep then "" :: split sep rest
      else match split sep rest with
           | w :: ws => String c w :: ws
           | [] => [String c ""]
           end
  end.

(** No character of the string is a space. *)
Fixpoint no_space (s : string) : bool :=
  match s with
  | EmptyString => true
  | String c rest => negb (Ascii.eqb c " "%char) && no_space rest
  end.

(** The test of [/^[^\s@]+@[^\s@]+\.[^\s@]+$/], left to the regular
    expression engine. *)
Class EmailRegex := {
  emailRegex_test : string -> bool
}.

(** ** routes/auth/index.js *)

Module AuthRoutes.

Section Handlers.
Context `{Bcrypt} `{Jwt} `{EmailRegex}.
Variable jwtConfig : jwtConfig.

(** [POST /register] for fields that are strings or missing, when no
    other request is served while it awaits the hash. *)
Definition register (users : User.store) (username email password : option string)
    (salt : string) : response * User.store :=
  if falsy username || falsy email || falsy password then
    (error 400 "Please provide username, email and password", users)
  else if (String.length (str username) <? 3)%nat then
    (error 400 "Username must be at least 3 characters long", users)
  else if (String.length (str password) <? 6)%nat then
    (error 400 "Password must be at least 6 characters long", users)
  else if negb (emailRegex_test (str email)) then
    (error 400 "Please provide a valid email address", users)
  else
    match User.create users (str username) (str email) (str password) salt with
    | Return (users', user) =>
        (mkResponse 201 "success" (Some "User registered successfully")
           (UserData user), users')
    | Throw e =>
        if e =? "User already exists"
        then (error 400 "Username or email already in use", users)
        else (internal_error, users)
    end.

(** [POST /login] for fields that are strings or missing; [Untyped.login]
    takes a password of any type. *)
Definition login (users : User.store) (usernameOrEmail password : option string)
    (now : nat) : response * User.store :=
  if falsy usernameOrEmail || falsy password then
    (error 400 "Please provide username/email and password", users)
  else
    match User.findByCredentials users (str usernameOrEmail) with
    | None => (error 401 "Invalid credentials", users)
    | Some user =>
        let isMatch := User.comparePassword (str password) (User.password user) in
        if negb isMatch then (error 401 "Invalid credentials", users)
        else
          match TokenUtils.generateAccessToken jwtConfig (User.id user) now with
          | None => (internal_error, users)
          | Some accessToken =>
              match TokenUtils.generateRefreshToken jwtConfig users (User.id user) now with
              | None => (internal_error, users)
              | Some (refreshToken, users') =>
                  (mkResponse 200 "success" (Some "Login successful")
                     (LoginData accessToken refreshToken (User.public user)),
                   users')
              end
          end
    end.

(** [POST /refresh-token].  [userId] is a number whenever [valid] holds
    ([verifyRefreshToken] sets both together), so the last branch is dead. *)
Definition refresh_token (users : User.store) (refreshToken : option string)
    (now : nat) : response * User.store :=
  if falsy refreshToken then
    (error 400 "Refresh token is required", users)
  else
    let v := TokenUtils.verifyRefreshToken jwtConfig users (str refreshToken) now in
    if negb (TokenUtils.valid v) then
      if TokenUtils.expired v then
        (error 401 "Refresh token has expired. Please login again.", users)
      else
        (error 401 "Invalid refresh token", users)
    else
      match TokenUtils.v_userId v with
      | Some userId =>
          match TokenUtils.generateAccessToken jwtConfig userId now with
          | Some accessToken =>
              (mkResponse 200 "success" None (AccessData accessToken), users)
          | None => (internal_error, users)
          end
      | None => (internal_error, users)
      end.

(** [POST /logout].  In [valid && userId] a [null] and a [0] are falsy. *)
Definition logout (users : User.store) (refreshToken : option string)
    (now : nat) : response * User.store :=
  if falsy refreshToken then
    (error 400 "Refresh token is required", users)
  else
    let v := TokenUtils.verifyRefreshToken jwtConfig users (str refreshToken) now in
    let users' :=
      match TokenUtils.v_userId v with
      | Some userId =>
          if TokenUtils.valid v && negb (userId =? 0)%nat
          then User.removeRefreshToken users userId (str refreshToken)
          else users
      | None => users
      end in
    (mkResponse 200 "success" (Some "Logged out successfully") NoData, users').

End Handlers.

End AuthRoutes.

(** ** POST /login with a password that is any JSON value *)

Module Untyped.

(** A request field by what the login route can tell of it: missing, a
    string, or a value of another type (a number, a boolean, [null], an
    array, an object) with its truthiness. *)
Inductive value :=
| Undefined
| Str (s : string)
| NonString (truthy : bool).

Definition truthy (v : value) : bool :=
  match v with
  | Undefined => false
  | Str s => negb (s =? "")
  | NonString b => b
  end.

Definition of_field (field : option string) : value :=
  match field with
  | Some s => Str s
  | None => Undefined
  end.

(** [bcrypt.compare(plain, hashed)]: it rejects arguments that are not
    strings before it compares anything. *)
Definition comparePassword `{Bcrypt} (plainPassword : value) (hashedPassword : string)
  : result string bool :=
  match plainPassword with
  | Str p => Return (User.comparePassword p hashedPassword)
  | _ => Throw "data and hash must be strings"
  end.

Section Handlers.
Context `{Bcrypt} `{Jwt}.
Variable jwtConfig : jwtConfig.

(** [POST /login]; a rejection of [bcrypt.compare] lands in the [catch]. *)
Definition login (users : User.store) (usernameOrEmail : option string)
    (password : value) (now : nat) : response * User.store :=
  if falsy usernameOrEmail || negb (truthy password) then
    (error 400 "Please provide username/email and password", users)
  else
    match User.findByCredentials users (str usernameOrEmail) with
    | None => (error 401 "Invalid credentials", users)
    | Some user =>
        match comparePassword password (User.password user) with
        | Throw _ => (internal_error, users)
        | Return isMatch =>
            if negb isMatch then (error 401 "Invalid credentials", users)
            else
              match TokenUtils.generateAccessToken jwtConfig (User.id user) now with
              | None => (internal_error, users)
              | Some accessToken =>
                  match TokenUtils.generateRefreshToken jwtConfig users (User.id user) now with
                  | None => (internal_error, users)
                  | Some (refreshToken, users') =>
                      (mkResponse 200 "success" (Some "Login successful")
                         (LoginData accessToken refreshToken (User.public user)),
                       users')
                  end
              end
        end
    end.

End Handlers.

End Untyped.

(** ** middleware/auth.js *)

Module AuthMiddleware.

(** The middleware either answers the request itself or sets [req.user]
    and calls [next()]. *)
Inductive outcome :=
| Respond (r : response)
| Next (user : User.publicUser).

Section Middleware.
Context `{Jwt}.
Variable jwtConfig : jwtConfig.

Definition authenticate (users : User.store) (authHeader : option string)
    (now : nat) : outcome :=
  if falsy authHeader || negb (String.prefix "Bearer " (str authHeader)) then
    Respond (error 401 "Authentication required. No token provided.")
  else
    let token := nth 1 (split " "%char (str authHeader)) "" in
    let v := TokenUtils.verifyAccessToken jwtConfig token now in
    if negb (TokenUtils.valid v) then
      if TokenUtils.expired v then
        Respond (error 401 "Token has expired. Please refresh your token.")
      else
        Respond (error 401 "Invalid token.")
    else
      match (match TokenUtils.v_userId v with
             | Some userId => User.findById users userId
             | None => None (* [parseInt(null)] is [NaN] and matches no id *)
             end) with
      | None => Respond (error 401 "User not found.")
      | Some user =>
          Next (User.mkPublic (User.id user) (User.username user) (User.email user))
      end.

End Middleware.

End AuthMiddleware.

(** ** The server as a transition system *)

Module Server.

(** What reaches the store: the four auth routes, a guarded request, and
    the store's own mutators called directly. *)
Inductive request :=
| Register (username email password : option string) (salt : string)
| Login (usernameOrEmail password : option string)
| RefreshToken (refreshToken : option string)
| Logout (refreshToken : option string)
| Guarded (authHeader : option string)
| Create (username email password salt : string)
| AddRefreshToken (userId : nat) (token : string)
| RemoveRefreshToken (userId : nat) (token : string).

Section Run.
Context `{Bcrypt} `{Jwt} `{EmailRegex}.
Variable jwtConfig : jwtConfig.

Definition step (users : User.store) (r : request) (now : nat) : User.store :=
  match r with
  | Register username email password salt =>
      snd (AuthRoutes.register users username email password salt)
  | Login usernameOrEmail password =>
      snd (AuthRoutes.login jwtConfig users usernameOrEmail password now)
  | RefreshToken refreshToken =>
      snd (AuthRoutes.refresh_token jwtConfig users refreshToken now)
  | Logout refreshToken =>
      snd (AuthRoutes.logout jwtConfig users refreshToken now)
  | Guarded _ => users
  | Create username email password salt =>
      match User.create users username email password salt with
      | Return (users', _) => users'
      | Throw _ => users
      end
  | AddRefreshToken userId token => User.addRefreshToken users userId token
  | RemoveRefreshToken userId token => User.removeRefreshToken users userId token
  end.

(** The requests served so far, each with the clock reading at its arrival. *)
Fixpoint run (users : User.store) (trace : list (request * nat)) : User.store :=
  match trace with
  | [] => users
  | (r, now) :: rest => run (step users r now) rest
  end.

Definition reachable (users : User.store) : Prop :=
  exists trace, run User.empty trace = users.

End Run.

End Server.

(** ** Registrations that overlap

    [User.create] is asynchronous: it checks for an existing user, awaits
    [bcrypt.hash], and only then reads [users.length] and pushes.  Other
    requests are served while the hash is computed, so the two halves see
    the store at two different moments. *)

Module Overlap.

(** [User.create] up to its [await]: the check, on the store as it is when
    the call is made. *)
Definition create_check (users : User.store) (username' email' : string)
  : result string unit :=
  match find (fun u => (User.username u =? username') || (User.email u =? email')) users with
  | Some _ => Throw "User already exists"
  | None => Return tt
  end.

(** [User.create] from the settling of the hash on, on the store as it is
    then. *)
Definition create_resume `{Bcrypt} (users : User.store)
    (username' email' password' salt : string) : User.store * User.publicUser :=
  let hashedPassword := bcrypt_hash password' 10 salt in
  let id' := List.length users + 1 in
  let u := User.mkUser id' username' email' hashedPassword [] in
  (push users u, User.public u).

(** [POST /register] up to the [await]: it has answered, or it waits for
    the hash with the three fields in hand. *)
Inductive pending :=
| Answered (r : response)
| Awaiting (username email password : string).

Definition register_begin `{EmailRegex} (users : User.store)
    (username email password : option string) : pending :=
  if falsy username || falsy email || falsy password then
    Answered (error 400 "Please provide username, email and password")
  else if (String.length (str username) <? 3)%nat then
    Answered (error 400 "Username must be at least 3 characters long")
  else if (String.length (str password) <? 6)%nat then
    Answered (error 400 "Password must be at least 6 characters long")
  else if negb (emailRegex_test (str email)) then
    Answered (error 400 "Please provide a valid email address")
  else
    match create_check users (str username) (str email) with
    | Return _ => Awaiting (str username) (str email) (str password)
    | Throw e =>
        if e =? "User already exists"
        then Answered (error 400 "Username or email already in use")
        else Answered internal_error
    end.

(** [POST /register] from the settling of the hash on. *)
Definition register_resume `{Bcrypt} (users : User.store)
    (username email password salt : string) : response * User.store :=
  let (users', user) := create_resume users username email password salt in
  (mkResponse 201 "success" (Some "User registered successfully") (UserData user),
   users').

(** The server between two turns of the event loop: the store and the
    registrations that wait for their hash. *)
Record state := mkState {
  users : User.store;
  awaiting : list (string * string * string)
}.

Definition initial : state := mkState User.empty [].

Inductive event :=
| Serve (r : Server.request) (now : nat)
| Begin (username email password : option string)
| Settle (k : nat) (salt : string).

Fixpoint remove_nth {A} (k : nat) (l : list A) : list A :=
  match k, l with
  | _, [] => []
  | 0, _ :: rest => rest
  | S k', x :: rest => x :: remove_nth k' rest
  end.

Section Loop.
Context `{Bcrypt} `{Jwt} `{EmailRegex}.
Variable jwtConfig : jwtConfig.

Definition step (st : state) (ev : event) : state :=
  match ev with
  | Serve r now => mkState (Server.step jwtConfig (users st) r now) (awaiting st)
  | Begin username email password =>
      match register_begin (users st) username email password with
      | Awaiting n e p => mkState (users st) (awaiting st ++ [(n, e, p)])
      | Answered _ => st
      end
  | Settle k salt =>
      match nth_error (awaiting st) k with
      | Some (n, e, p) =>
          mkState (snd (register_resume (users st) n e p salt))
                  (remove_nth k (awaiting st))
      | None => st
      end
  end.

Fixpoint run (st : state) (trace : list event) : state :=
  match trace with
  | [] => st
  | ev :: rest => run (step st ev) rest
  end.

(** The stores the server reaches, overlapping registrations included. *)
Definition reachable (store : User.store) : Prop :=
  exists trace, users (run initial trace) = store.

End Loop.

End Overlap.

(** ** The auth guard, as the specification words it and as it is built *)

Module Guard.

Inductive AuthResult :=
| Valid (subject : nat)
| Expired
| Invalid.

Inductive reason := NoToken | TokenExpired | TokenInvalid | UserNotFound.

Inductive state :=
| Authenticated (identity : User.publicUser)
| Rejected (why : reason).

Section Machine.
Context `{Jwt}.

(** Token codec: [verify(token, key)]. *)
Definition verify (token key : string) (now : nat) : AuthResult :=
  match jwt_verify token key now with
  | Return decoded => Valid (userId decoded)
  | Throw TokenExpiredError => Expired
  | Throw JsonWebTokenError => Invalid
  end.

(** The rest of [s] after the prefix [p], if [s] begins with [p]. *)
Fixpoint strip (p s : string) : option string :=
  match p, s with
  | EmptyString, _ => Some s
  | String a p', String b s' => if Ascii.eqb a b then strip p' s' else None
  | String _ _, EmptyString => None
  end.

(** The bearer credential under the convention [Authorization: Bearer
    <token>]: the scheme, a space and one token, which is not empty and
    holds no space.  A header that is missing, or is not of that shape,
    carries no credential. *)
Definition credential (authHeader : option string) : option string :=
  match authHeader with
  | None => None
  | Some h =>
      match strip "Bearer " h with
      | Some token =>
          if negb (token =? "") && no_space token then Some token else None
      | None => None
      end
  end.

Definition gate (accessKey : string) (users : User.store)
    (authHeader : option string) (now : nat) : state :=
  match credential authHeader with
  | None => Rejected NoToken
  | Some token =>
      match verify token accessKey now with
      | Expired => Rejected TokenExpired
      | Invalid => Rejected TokenInvalid
      | Valid subject =>
          match User.findById users subject with
          | None => Rejected UserNotFound
          | Some u => Authenticated (User.public u)
          end
      end
  end.

(** The gate with "malformed" narrowed to "does not begin with the scheme
    and a space": what is verified then is the text after that space up
    to the next space or the end, be it empty, and whatever follows it is
    not looked at. *)
Fixpoint first_field (s : string) : string :=
  match s with
  | EmptyString => EmptyString
  | String c rest =>
      if Ascii.eqb c " "%char then EmptyString else String c (first_field rest)
  end.

Definition presented (authHeader : option string) : option string :=
  match authHeader with
  | None => None
  | Some h =>
      match strip "Bearer " h with
      | Some rest => Some (first_field rest)
      | None => None
      end
  end.

Definition gate_as_built (accessKey : string) (users : User.store)
    (authHeader : option string) (now : nat) : state :=
  match presented authHeader with
  | None => Rejected NoToken
  | Some token =>
      match verify token accessKey now with
      | Expired => Rejected TokenExpired
      | Invalid => Rejected TokenInvalid
      | Valid subject =>
          match User.findById users subject with
          | None => Rejected UserNotFound
          | Some u => Authenticated (User.public u)
          end
      end
  end.

End Machine.

(** How the middleware words each terminal state. *)
Definition render (s : state) : AuthMiddleware.outcome :=
  match s with
  | Authenticated identity => AuthMiddleware.Next identity
  | Rejected NoToken =>
      AuthMiddleware.Respond (error 401 "Authentication required. No token provided.")
  | Rejected TokenExpired =>
      AuthMiddleware.Respond (error 401 "Token has expired. Please refresh your token.")
  | Rejected TokenInvalid =>
      AuthMiddleware.Respond (error 401 "Invalid token.")
  | Rejected UserNotFound =>
      AuthMiddleware.Respond (error 401 "User not found.")
  end.

End Guard.

(** ** Effects on the store and its invariant *)

(** A request leaves the store alone, appends a user through
    [User.create], or rewrites one token list through the two mutators. *)
Inductive effect `{Bcrypt} (users users' : User.store) : Prop :=
| Unchanged : users' = users -> effect users users'
| Created username email password salt pub :
    User.create users username email password salt = Return (users', pub) ->
    effect users users'
| Added userId token :
    users' = User.addRefreshToken users userId token -> effect users users'
| Removed userId token :
    users' = User.removeRefreshToken users userId token -> effect users users'.

(** The token list [addRefreshToken] leaves in the record it updates. *)
Definition retained (toks : list string) (token : string) : list string :=
  push (if (5 <=? List.length toks)%nat then shift toks else toks) token.

(** What every store built by the program satisfies: token lists within
    the bound, usernames and emails pairwise distinct, ids counting up
    from 1 in insertion order. *)
Definition well_formed (users : User.store) : Prop :=
  Forall (fun u => List.length (User.refreshTokens u) <= 5) users
  /\ NoDup (map User.username users)
  /\ NoDup (map User.email users)
  /\ map User.id users = seq 1 (List.length users).

(** ** A model of the libraries

    Tokens of the model spell out their payload in unary and end with the
    secret that signed them: [J<userId>.<iat>.<exp>.<secret>]. *)

Module Model.

Fixpoint unary (n : nat) : string :=
  match n with
  | 0 => ""
  | S m => String "1"%char (unary m)
  end.

Fixpoint read_unary (s : string) : nat * string :=
  match s with
  | String c rest =>
      if Ascii.eqb c "1"%char
      then let (n, r) := read_unary rest in (S n, r)
      else (0, s)
  | EmptyString => (0, s)
  end.

(** Skips one dot. *)
Definition dot (s : string) : option string :=
  match s with
  | String c rest => if Ascii.eqb c "."%char then Some rest else None
  | EmptyString => None
  end.

Definition sign (uid : nat) (k : string) (ttl t0 : nat) : option string :=
  if k =? "" then None
  else Some ("J" ++ unary uid ++ "." ++ unary t0 ++ "." ++ unary (t0 + ttl) ++ "." ++ k).

Definition signed_payload (tok k : string) : option payload :=
  match tok with
  | String c r0 =>
      if Ascii.eqb c "J"%char then
        let (uid, r1) := read_unary r0 in
        match dot r1 with
        | Some r2 =>
            let (t0, r3) := read_unary r2 in
            match dot r3 with
            | Some r4 =>
                let (e, r5) := read_unary r4 in
                match dot r5 with
                | Some sig => if sig =? k then Some (mkPayload uid t0 e) else None
                | None => None
                end
            | None => None
            end
        | None => None
        end
      else None
  | EmptyString => None
  end.

(** Digests of the model are the password behind a marker. *)
Definition hash (password : string) (rounds : nat) (salt : string) : string :=
  "$" ++ password.

Definition compare (plain digest : string) : bool :=
  digest =? "$" ++ plain.

Fixpoint has_at (s : string) : bool :=
  match s with
  | String c rest => Ascii.eqb c "@"%char || has_at rest
  | EmptyString => false
  end.

(** [parseInt] of the model reads leading decimal digits. *)
Definition digit (c : ascii) : option nat :=
  let n := nat_of_ascii c in
  if (48 <=? n)%nat && (n <=? 57)%nat then Some (n - 48) else None.

Fixpoint read_digits (acc : option nat) (s : string) : option nat :=
  match s with
  | String c rest =>
      match digit c with
      | Some d =>
          read_digits (Some (10 * match acc with Some a => a | None => 0 end + d)) rest
      | None => acc
      end
  | EmptyString => acc
  end.

Definition config : jwtConfig :=
  mkJwtConfig (mkTokenConfig "access-secret" 15) (mkTokenConfig "refresh-secret" 60).

End Model.

(** The model satisfies the library laws. *)

Module ModelLaws.
Import Model.

Lemma read_unary_dot (n : nat) (rest : string) :
  read_unary (unary n ++ String "."%char rest) = (n, String "."%char rest).
Proof.
  induction n as [|n IH]; simpl.
  - reflexivity.
  - rewrite IH. reflexivity.
Qed.

Lemma signed_payload_sign (uid : nat) (k : string) (ttl t0 : nat) (tok k' : string) :
  sign uid k ttl t0 = Some tok ->
  signed_payload tok k' =
    if k =? k' then Some (mkPayload uid t0 (t0 + ttl)) else None.
Proof.
  unfold sign. destruct (k =? "") eqn:Ek; [discriminate|].
  intros [= <-]. cbn [signed_payload append].
  change (Ascii.eqb "J" "J") with true. cbv iota.
  rewrite read_unary_dot. cbn [dot]. change (Ascii.eqb "." ".") with true. cbv iota.
  rewrite read_unary_dot. cbn [dot]. change (Ascii.eqb "." ".") with true. cbv iota.
  rewrite read_unary_dot. cbn [dot]. change (Ascii.eqb "." ".") with true. cbv iota.
  reflexivity.
Qed.

Lemma sign_none (uid : nat) (k : string) (ttl t0 : nat) :
  sign uid k ttl t0 = None <-> k = "".
Proof.
  unfold sign. destruct (String.eqb_spec k ""); split; intros; congruence.
Qed.

Lemma sign_truthy (uid : nat) (k : string) (ttl t0 : nat) (tok : string) :
  sign uid k ttl t0 = Some tok -> tok <> "".
Proof.
  unfold sign. destruct (k =? ""); [discriminate|].
  intros [= <-]. discriminate.
Qed.

Lemma signed_payload_own (uid : nat) (k : string) (ttl t0 : nat) (tok : string) :
  sign uid k ttl t0 = Some tok ->
  signed_payload tok k = Some (mkPayload uid t0 (t0 + ttl)).
Proof.
  intros Hs. rewrite (signed_payload_sign _ _ _ _ _ k Hs), String.eqb_refl.
  reflexivity.
Qed.

Lemma signed_payload_other (uid : nat) (k : string) (ttl t0 : nat) (tok k' : string) :
  sign uid k ttl t0 = Some tok ->
  k' <> k ->
  signed_payload tok k' = None.
Proof.
  intros Hs Hk. rewrite (signed_payload_sign _ _ _ _ _ k' Hs).
  destruct (String.eqb_spec k k'); congruence.
Qed.

End ModelLaws.

Definition model_bcrypt : Bcrypt :=
  {| bcrypt_hash := Model.hash; bcrypt_compare := Model.compare |}.

Definition model_regex : EmailRegex :=
  {| emailRegex_test := Model.has_at |}.

Definition model_jwt : Jwt :=
  {| jwt_sign := Model.sign;
     jwt_signed_payload := Model.signed_payload;
     jwt_sign_secret := ModelLaws.sign_none;
     jwt_sign_truthy := ModelLaws.sign_truthy;
     jwt_payload_sign := ModelLaws.signed_payload_own;
     jwt_payload_other_secret := ModelLaws.signed_payload_other |}.

Definition model_parseInt : ParseInt :=
  {| parseInt_string := Model.read_digits None;
     parseInt_number := fun n => Some n;
     parseInt_safe := fun n _ => eq_refl |}.

(** ** A session on the model, used to exercise the statements below *)

Module Scenario.

Definition step := @Server.step model_bcrypt model_jwt model_regex Model.config.
Definition run := @Server.run model_bcrypt model_jwt model_regex Model.config.
Definition reachable := @Server.reachable model_bcrypt model_jwt model_regex Model.config.
Definition login := @AuthRoutes.login model_bcrypt model_jwt Model.config.
Definition refresh_token := @AuthRoutes.refresh_token model_jwt Model.config.
Definition logout := @AuthRoutes.logout model_jwt Model.config.

(** alice registers at second 3 and logs in at second 4. *)
Definition registration : list (Server.request * nat) :=
  [(Server.Register (Some "alice") (Some "a@x.com") (Some "secret1") "salt", 3)].

Definition session : list (Server.request * nat) :=
  registration ++ [(Server.Login (Some "alice") (Some "secret1"), 4)].

Definition registered : User.store := Eval vm_compute in run User.empty registration.
Definition logged_in : User.store := Eval vm_compute in run User.empty session.

Definition alice_access : string :=
  Eval vm_compute in
    match Model.sign 1 "access-secret" 15 4 with Some t => t | None => "" end.

Definition alice_refresh : string :=
  Eval vm_compute in
    match Model.sign 1 "refresh-secret" 60 4 with Some t => t | None => "" end.

Definition alice : User.user :=
  User.mkUser 1 "alice" "a@x.com" "$secret1" [alice_refresh].

End Scenario.

(** A store with a repeated token, for the examples on removal. *)
Definition two_users : User.store :=
  [User.mkUser 1 "alice" "a@x.com" "$secret1" ["t1"; "t2"; "t1"];
   User.mkUser 2 "bob" "b@x.com" "$hunter22" ["t1"]].

(** ** routes/users.js *)

Module UsersRoutes.

(** What a users route sends: the guard's refusal when the guard answered
    the request itself, else the route's own body. *)
Inductive reply :=
| Refused (r : response)
| Listed (code : nat) (status : string) (users : list User.publicUser)
| Shown (code : nat) (status : string) (user : User.publicUser)
| Failed (code : nat) (status : string) (message : string).

Section Routes.
Context `{Jwt} `{ParseInt}.
Variable jwtConfig : jwtConfig.

(** [router.get(path, authenticate, handler)] *)
Definition guarded (users : User.store) (authHeader : option string) (now : nat)
    (handler : User.publicUser -> reply) : reply :=
  match AuthMiddleware.authenticate jwtConfig users authHeader now with
  | AuthMiddleware.Respond r => Refused r
  | AuthMiddleware.Next user => handler user
  end.



(** [GET /:id]: [User.findById(parseInt(req.params.id))], where
    [findById] applies [parseInt] once more; [NaN] stays [NaN]. *)
Definition user_by_id (users : User.store) (authHeader : option string)
    (now : nat) (id : string) : reply :=
  guarded users authHeader now
    (fun _ =>
       match (match parseInt_string id with
              | Some n => findById_number users n
              | None => None
              end) with
       | None => Failed 404 "error" "User not found"
       | Some user =>
           Shown 200 "success"
             (User.mkPublic (User.id user) (User.username user) (User.email user))
       end).

End Routes.

End UsersRoutes.

(** ** utils/aiLogger.js *)

Module AiLogger.

(** [s.substring(0, 100) + (s.length > 100 ? '...' : '')], as written at
    each place that logs a text. *)
Definition preview (s : string) : string :=
  String.substring 0 100 s ++ (if (100 <? String.length s)%nat then "..." else "").

(** Truthiness of a text field that may be missing. *)
Definition present (field : option string) : option string :=
  match field with
  | Some s => if s =? "" then None else Some s
  | None => None
  end.

Section Logs.
(** Model parameters are numbers; [truthy] tells [0] and [NaN] from the
    rest. *)
Variable number : Type.
Variable truthy : number -> bool.

Definition kept (field : option number) : option number :=
  match field with
  | Some n => if truthy n then Some n else None
  | None => None
  end.

Record chatMessage := mkChatMessage {
  content : option string
}.

Record requestData := mkRequestData {
  prompt : option string;
  messages : option (list chatMessage);
  message : option string;
  temperature : option number;
  maxTokens : option number;
  topK : option number;
  topP : option number
}.

(** The [logData] object of [logModelRequest]; a key that is not set is
    [None]. *)
Record requestLog := mkRequestLog {
  operation : string;
  model : string;
  timestamp : string;
  sessionId : option string;
  promptLength : option nat;
  promptPreview : option string;
  messagesCount : option nat;
  lastMessagePreview : option string;
  messageLength : option nat;
  messagePreview : option string;
  log_temperature : option number;
  log_maxTokens : option number;
  log_topK : option number;
  log_topP : option number
}.

(** [logModelRequest]: the line and the data handed to [logger.info];
    [now] is [new Date().toISOString()]. *)
Definition logModelRequest (operation' : string) (requestData' : option requestData)
    (modelName : string) (sessionId' : option string) (now : string)
  : string * requestLog :=
  let text (f : requestData -> option string) : option string :=
    match requestData' with
    | Some d => present (f d)
    | None => None
    end in
  let param (f : requestData -> option number) : option number :=
    match requestData' with
    | Some d => kept (f d)
    | None => None
    end in
  let msgs : option (list chatMessage) :=
    match requestData' with
    | Some d => messages d
    | None => None
    end in
  ("AI Request: " ++ operation' ++ " with " ++ modelName,
   {| operation := operation';
      model := modelName;
      timestamp := now;
      sessionId := present sessionId';
      promptLength := option_map String.length (text prompt);
      promptPreview := option_map preview (text prompt);
      messagesCount := option_map (@List.length chatMessage) msgs;
      lastMessagePreview :=
        match msgs with
        | Some l =>
            match last (map Some l) None with
            | Some lastMsg => option_map preview (present (content lastMsg))
            | None => None
            end
        | None => None
        end;
      messageLength := option_map String.length (text message);
      messagePreview := option_map preview (text message);
      log_temperature := param temperature;
      log_maxTokens := param maxTokens;
      log_topK := param topK;
      log_topP := param topP |}).

End Logs.

End AiLogger.

(** ** Requests served over HTTP *)

(** The requests a client can send: the routes, as opposed to direct calls
    of the store's mutators. *)
Definition is_route (r : Server.request) : bool :=
  match r with
  | Server.Register _ _ _ _ | Server.Login _ _ | Server.RefreshToken _
  | Server.Logout _ | Server.Guarded _ => true
  | Server.Create _ _ _ _ | Server.AddRefreshToken _ _
  | Server.RemoveRefreshToken _ _ => false
  end.

(** The stores the server reaches by serving requests only. *)
Definition served `{Bcrypt} `{Jwt} `{EmailRegex} (cfg : jwtConfig)
    (users : User.store) : Prop :=
  exists trace,
    forallb (fun e => is_route (fst e)) trace = true
    /\ Server.run cfg User.empty trace = users.

(** What a served request does to the store, with what the route checked
    before it did so. *)
Inductive route_effect `{Bcrypt} `{Jwt} `{EmailRegex} (cfg : jwtConfig)
    (users users' : User.store) : Prop :=
| Untouched : users' = users -> route_effect cfg users users'
| Registered username email password salt pub :
    (3 <= String.length username)%nat ->
    (6 <= String.length password)%nat ->
    emailRegex_test email = true ->
    User.create users username email password salt = Return (users', pub) ->
    route_effect cfg users users'
| LoggedIn name u issued token :
    User.findByCredentials users name = Some u ->
    jwt_sign (User.id u) (secret (refreshToken cfg))
      (expiresIn (refreshToken cfg)) issued = Some token ->
    users' = User.addRefreshToken users (User.id u) token ->
    route_effect cfg users users'
| LoggedOut userId token :
    users' = User.removeRefreshToken users userId token ->
    route_effect cfg users users'.

(** What holds of every record the routes have written: each of its
    tokens was minted for its id. *)
Definition vetted `{Bcrypt} `{Jwt} `{EmailRegex} (cfg : jwtConfig)
    (u : User.user) : Prop :=
  forall token, In token (User.refreshTokens u) ->
    exists issued,
      jwt_sign (User.id u) (secret (refreshToken cfg))
        (expiresIn (refreshToken cfg)) issued = Some token.

(** The part of a record that is fixed at registration. *)
Definition identity (u : User.user) : nat * string * string * string :=
  (User.id u, User.username u, User.email u, User.password u).

(** The store alice's second login in the same second leaves. *)
Definition logged_in_twice : User.store :=
  Eval vm_compute in
    Scenario.run Scenario.logged_in
      [(Server.Login (Some "alice") (Some "secret1"), 4)].

(** * Properties *)

Open Scope list_scope.

(** ** The credential store *)

Module UserFacts.
Import User.

Lemma mutate_first_absent (p : user -> bool) (f : user -> user) (users : store) :
  find p users = None -> mutate_first p f users = users.
Proof.
  induction users as [|u rest IH]; simpl; [reflexivity|].
  destruct (p u); [discriminate|]. intros Hn. now rewrite IH.
Qed.

(** [find] followed by an in-place update rewrites exactly the found
    element: the array splits around it. *)
Lemma mutate_first_found (p : user -> bool) (f : user -> user) (users : store) (u : user) :
  find p users = Some u ->
  exists before after,
    users = before ++ u :: after /\
    (forall v, In v before -> p v = false) /\
    p u = true /\
    mutate_first p f users = before ++ f u :: after.
Proof.
  induction users as [|w rest IH]; simpl; [discriminate|].
  destruct (p w) eqn:Ep.
  - intros [= ->]. exists [], rest. simpl. repeat split; auto. intros v [].
  - intros Hf. destruct (IH Hf) as (before & after & -> & Hb & Hu & Hm).
    exists (w :: before), after. simpl. rewrite Hm. repeat split; auto.
    intros v [<-|Hv]; auto.
Qed.

Lemma find_split (p : user -> bool) (before after : store) (u : user) :
  (forall v, In v before -> p v = false) -> p u = true ->
  find p (before ++ u :: after) = Some u.
Proof.
  induction before as [|w before IH]; simpl; intros Hb Hu.
  - now rewrite Hu.
  - rewrite (Hb w (or_introl eq_refl)). apply IH; auto.
Qed.

Lemma filter_is_remove (token : string) (toks : list string) :
  filter (fun t => negb (t =? token)) toks = remove string_dec token toks.
Proof.
  induction toks as [|t toks IH]; simpl; [reflexivity|].
  destruct (string_dec token t) as [<-|Hne].
  - rewrite String.eqb_refl. simpl. exact IH.
  - destruct (String.eqb_spec t token); [congruence|]. simpl. now rewrite IH.
Qed.

Lemma includes_In (toks : list string) (token : string) :
  includes toks token = true <-> In token toks.
Proof.
  unfold includes. rewrite existsb_exists. split.
  - intros (t & Ht & He). apply String.eqb_eq in He. now subst.
  - intros Hin. exists token. split; [assumption|apply String.eqb_refl].
Qed.

End UserFacts.

Lemma findById_id (users : User.store) (i : nat) (u : User.user) :
  User.findById users i = Some u -> User.id u = i.
Proof.
  unfold User.findById. intros Hf. apply find_some in Hf.
  now apply Nat.eqb_eq.
Qed.

Lemma count_occ_remove_other (token t : string) (toks : list string) :
  t <> token ->
  count_occ string_dec (remove string_dec token toks) t = count_occ string_dec toks t.
Proof.
  intros Hne. induction toks as [|x toks IH]; simpl; [reflexivity|].
  destruct (string_dec token x) as [<-|Hx].
  - destruct (string_dec token t); [congruence|]. exact IH.
  - simpl. destruct (string_dec x t); now rewrite IH.
Qed.

Lemma set_refreshTokens_same (u : User.user) :
  User.set_refreshTokens u (User.refreshTokens u) = u.
Proof. now destruct u. Qed.

(** [removeRefreshToken] rewrites the first record with the id, and only
    its token list. *)
Lemma removeRefreshToken_split (users : User.store) (userId : nat) (token : string)
    (u : User.user) :
  User.findById users userId = Some u ->
  exists before after,
    users = before ++ u :: after
    /\ (forall v, In v before -> User.id v <> userId)
    /\ User.removeRefreshToken users userId token =
         before ++ User.set_refreshTokens u
           (remove string_dec token (User.refreshTokens u)) :: after.
Proof.
  intros Hu. unfold User.removeRefreshToken. rewrite Hu.
  unfold User.findById in Hu.
  destruct (UserFacts.mutate_first_found _
              (fun u => User.set_refreshTokens u
                 (filter (fun t => negb (t =? token)) (User.refreshTokens u)))
              _ _ Hu) as (before & after & Hs & Hb & _ & Hm).
  exists before, after. repeat split; auto.
  - intros v Hv. apply Hb in Hv. now apply Nat.eqb_neq.
  - rewrite Hm, UserFacts.filter_is_remove. reflexivity.
Qed.

(** C9. [removeRefreshToken(userId, token)] leaves the store as it is when
    no user has that id or the token is not in that user's list; otherwise
    it rewrites only that user's [refreshTokens], to the list with every
    occurrence of [token] removed: no occurrence is left, every other entry
    keeps its multiplicity and its place in the order, and the user's other
    fields and all other users are untouched. *)
Theorem removeRefreshToken_removes_all (users : User.store) (userId : nat) (token : string) :
  (User.findById users userId = None ->
   User.removeRefreshToken users userId token = users)
  /\ (forall u, User.findById users userId = Some u ->
        ~ In token (User.refreshTokens u) ->
        User.removeRefreshToken users userId token = users)
  /\ (forall u, User.findById users userId = Some u ->
        let kept := remove string_dec token (User.refreshTokens u) in
        exists before after,
          users = before ++ u :: after
          /\ (forall v, In v before -> User.id v <> userId)
          /\ User.removeRefreshToken users userId token =
               before ++ User.mkUser (User.id u) (User.username u) (User.email u)
                           (User.password u) kept :: after
          /\ ~ In token kept
          /\ (forall t, t <> token ->
                count_occ string_dec kept t =
                count_occ string_dec (User.refreshTokens u) t)).
Proof.
  split; [|split].
  - intros Hn. unfold User.removeRefreshToken. now rewrite Hn.
  - intros u Hu Hnot.
    destruct (removeRefreshToken_split users userId token u Hu)
      as (before & after & Hs & _ & ->).
    rewrite (notin_remove string_dec _ _ Hnot), set_refreshTokens_same.
    now symmetry.
  - intros u Hu kept.
    destruct (removeRefreshToken_split users userId token u Hu)
      as (before & after & Hs & Hb & Hr).
    exists before, after. repeat split; auto.
    + apply remove_In.
    + intros t Ht. subst kept. now apply count_occ_remove_other.
Qed.

(** C9 at work on alice's record. *)
Lemma removeRefreshToken_removes_all_witness :
  User.removeRefreshToken two_users 7 "t2" = two_users
  /\ User.removeRefreshToken two_users 1 "t9" = two_users.
Proof.
  split.
  - apply (proj1 (removeRefreshToken_removes_all two_users 7 "t2")).
    reflexivity.
  - apply (proj1 (proj2 (removeRefreshToken_removes_all two_users 1 "t9"))
             (User.mkUser 1 "alice" "a@x.com" "$secret1" ["t1"; "t2"; "t1"])).
    + reflexivity.
    + simpl. intros [Hd|[Hd|[Hd|[]]]]; discriminate Hd.
Defined.

Example removeRefreshToken_every_occurrence :
  User.removeRefreshToken two_users 1 "t1" =
    [User.mkUser 1 "alice" "a@x.com" "$secret1" ["t2"];
     User.mkUser 2 "bob" "b@x.com" "$hunter22" ["t1"]].
Proof. reflexivity. Qed.

(** ** Reachable stores *)

Section Reachability.
Context `{Bcrypt} `{Jwt} `{EmailRegex}.
Variable cfg : jwtConfig.

Lemma step_effect (users : User.store) (r : Server.request) (now : nat) :
  effect users (Server.step cfg users r now).
Proof.
  destruct r as [u e p salt|u p|t|t|h|u e p salt|i t|i t]; simpl.
  - unfold AuthRoutes.register.
    repeat match goal with
           | |- context [if ?b then _ else _] => destruct b; simpl
           end; try (now apply Unchanged).
    destruct (User.create users (str u) (str e) (str p) salt) as [[users' pub]|err] eqn:Ec.
    + simpl. eapply Created; eassumption.
    + destruct (err =? "User already exists"); now apply Unchanged.
  - unfold AuthRoutes.login.
    destruct (falsy u || falsy p); [now apply Unchanged|].
    destruct (User.findByCredentials users (str u)) as [usr|]; [|now apply Unchanged].
    destruct (negb _); [now apply Unchanged|].
    destruct (TokenUtils.generateAccessToken cfg (User.id usr) now);
      [|now apply Unchanged].
    unfold TokenUtils.generateRefreshToken.
    destruct (jwt_sign _ _ _ _) as [tok|]; [|now apply Unchanged].
    simpl. eapply Added; reflexivity.
  - unfold AuthRoutes.refresh_token.
    repeat match goal with
           | |- context [if ?b then _ else _] => destruct b; simpl
           | |- context [match ?o with Some _ => _ | None => _ end] => destruct o; simpl
           end; now apply Unchanged.
  - unfold AuthRoutes.logout.
    destruct (falsy t); [now apply Unchanged|]. simpl.
    destruct (TokenUtils.v_userId _) as [uid|]; [|now apply Unchanged].
    destruct (_ && _); [eapply Removed; reflexivity|now apply Unchanged].
  - now apply Unchanged.
  - destruct (User.create users u e p salt) as [[users' pub]|err] eqn:Ec.
    + eapply Created; eassumption.
    + now apply Unchanged.
  - eapply Added; reflexivity.
  - eapply Removed; reflexivity.
Qed.

(** Induction over the requests served since the store was empty. *)
Lemma reachable_ind (P : User.store -> Prop) :
  P User.empty ->
  (forall users users', P users -> effect users users' -> P users') ->
  forall users, Server.reachable cfg users -> P users.
Proof.
  intros Hempty Hstep users [trace <-].
  generalize dependent User.empty.
  induction trace as [|[r now] rest IH]; simpl; intros s Hs; [assumption|].
  apply IH. eapply Hstep; [exact Hs|apply step_effect].
Qed.

End Reachability.

Lemma mutate_first_Forall (P : User.user -> Prop) (p : User.user -> bool)
    (f : User.user -> User.user) (users : User.store) :
  (forall u, P u -> P (f u)) ->
  Forall P users -> Forall P (User.mutate_first p f users).
Proof.
  intros Hf. induction 1 as [|u rest Hu Hrest IH]; simpl; [constructor|].
  destruct (p u); constructor; auto.
Qed.

Lemma mutate_first_map {B} (g : User.user -> B) (p : User.user -> bool)
    (f : User.user -> User.user) (users : User.store) :
  (forall u, g (f u) = g u) ->
  map g (User.mutate_first p f users) = map g users.
Proof.
  intros Hg. induction users as [|u rest IH]; simpl; [reflexivity|].
  destruct (p u); simpl; congruence.
Qed.

Lemma retained_length (toks : list string) (token : string) :
  List.length toks <= 5 -> List.length (retained toks token) <= 5.
Proof.
  unfold retained, push, shift. intros Hle.
  destruct (Nat.leb_spec 5 (List.length toks)); rewrite length_app; simpl.
  - destruct toks; simpl in *; lia.
  - lia.
Qed.

Lemma addRefreshToken_map {B} (g : User.user -> B) (users : User.store)
    (userId : nat) (token : string) :
  (forall u toks, g (User.set_refreshTokens u toks) = g u) ->
  map g (User.addRefreshToken users userId token) = map g users.
Proof.
  intros Hg. unfold User.addRefreshToken.
  destruct (User.findById users userId); [|reflexivity].
  apply mutate_first_map. intros w. apply Hg.
Qed.

Lemma removeRefreshToken_map {B} (g : User.user -> B) (users : User.store)
    (userId : nat) (token : string) :
  (forall u toks, g (User.set_refreshTokens u toks) = g u) ->
  map g (User.removeRefreshToken users userId token) = map g users.
Proof.
  intros Hg. unfold User.removeRefreshToken.
  destruct (User.findById users userId); [|reflexivity].
  apply mutate_first_map. intros w. apply Hg.
Qed.

Lemma create_Return `{Bcrypt} (users users' : User.store)
    (username email password salt : string) (pub : User.publicUser) :
  User.create users username email password salt = Return (users', pub) ->
  users' = users ++ [User.mkUser (List.length users + 1) username email
                       (bcrypt_hash password 10 salt) []]
  /\ pub = User.mkPublic (List.length users + 1) username email
  /\ forall v, In v users -> User.username v <> username /\ User.email v <> email.
Proof.
  unfold User.create.
  destruct (find _ users) eqn:Ef; [discriminate|].
  intros [= <- <-]. split; [reflexivity|split; [reflexivity|]].
  intros v Hv. pose proof (find_none _ _ Ef v Hv) as Hn. simpl in Hn.
  split; intros Heq; rewrite Heq, String.eqb_refl in Hn;
    [|rewrite orb_true_r in Hn]; discriminate.
Qed.

Lemma create_Throw `{Bcrypt} (users : User.store) (u : User.user)
    (username email password salt : string) :
  In u users ->
  User.username u = username \/ User.email u = email ->
  User.create users username email password salt = Throw "User already exists".
Proof.
  intros Hin Hdup. unfold User.create.
  destruct (find _ users) eqn:Ef; [reflexivity|].
  pose proof (find_none _ _ Ef u Hin) as Hn. simpl in Hn.
  destruct Hdup as [<-|<-]; rewrite String.eqb_refl in Hn;
    [|rewrite orb_true_r in Hn]; discriminate.
Qed.

Lemma NoDup_snoc {A} (l : list A) (x : A) :
  NoDup l -> ~ In x l -> NoDup (l ++ [x]).
Proof.
  intros Hl Hx. apply NoDup_app; [assumption|repeat constructor; intros []|].
  intros a Ha [<-|[]]. contradiction.
Qed.

Lemma filter_length_bound {A} (f : A -> bool) (l : list A) (n : nat) :
  List.length l <= n -> List.length (filter f l) <= n.
Proof.
  induction l as [|x l IH] in n |- *; simpl; [trivial|].
  intros Hn. destruct n as [|n]; [lia|].
  destruct (f x); simpl; [apply le_n_S|apply Nat.le_le_succ_r]; apply IH; lia.
Qed.

Lemma effect_well_formed `{Bcrypt} (users users' : User.store) :
  well_formed users -> effect users users' -> well_formed users'.
Proof.
  intros (Hlen & Hname & Hmail & Hid) [->|n e p salt pub Hc|i t ->|i t ->].
  - repeat split; assumption.
  - apply create_Return in Hc. destruct Hc as (-> & _ & Hfresh).
    repeat split.
    + apply Forall_app. split; [assumption|].
      constructor; [simpl; lia|constructor].
    + rewrite map_app. simpl. apply NoDup_snoc; [assumption|].
      intros Hin. apply in_map_iff in Hin. destruct Hin as (v & Hv & Hin).
      now apply (proj1 (Hfresh v Hin)).
    + rewrite map_app. simpl. apply NoDup_snoc; [assumption|].
      intros Hin. apply in_map_iff in Hin. destruct Hin as (v & Hv & Hin).
      now apply (proj2 (Hfresh v Hin)).
    + rewrite map_app, length_app, Hid. simpl.
      rewrite Nat.add_1_r at 2. rewrite seq_S. simpl.
      now rewrite Nat.add_1_r.
  - assert (Hids : map User.id (User.addRefreshToken users i t) = map User.id users)
      by (now apply addRefreshToken_map).
    repeat split.
    + unfold User.addRefreshToken. destruct (User.findById users i); [|assumption].
      apply mutate_first_Forall; [|assumption].
      intros w Hw. simpl. now apply retained_length.
    + now rewrite addRefreshToken_map.
    + now rewrite addRefreshToken_map.
    + rewrite Hids, Hid. f_equal.
      now rewrite <- (length_map User.id users), <- Hids, length_map.
  - assert (Hids : map User.id (User.removeRefreshToken users i t) = map User.id users)
      by (now apply removeRefreshToken_map).
    repeat split.
    + unfold User.removeRefreshToken. destruct (User.findById users i); [|assumption].
      apply mutate_first_Forall; [|assumption].
      intros w Hw. simpl. now apply filter_length_bound.
    + now rewrite removeRefreshToken_map.
    + now rewrite removeRefreshToken_map.
    + rewrite Hids, Hid. f_equal.
      now rewrite <- (length_map User.id users), <- Hids, length_map.
Qed.

Lemma reachable_well_formed `{Bcrypt} `{Jwt} `{EmailRegex} (cfg : jwtConfig)
    (users : User.store) :
  Server.reachable cfg users -> well_formed users.
Proof.
  apply reachable_ind.
  - repeat split; simpl; constructor.
  - intros s s' Hs He. eapply effect_well_formed; eassumption.
Qed.

(** ** The session on the model *)

Example scenario_registered :
  Scenario.registered = [User.mkUser 1 "alice" "a@x.com" "$secret1" []].
Proof. reflexivity. Qed.

Example scenario_logged_in : Scenario.logged_in = [Scenario.alice].
Proof. reflexivity. Qed.

Example scenario_login_response :
  fst (Scenario.login Scenario.registered (Some "alice") (Some "secret1") 4) =
  mkResponse 200 "success" (Some "Login successful")
    (LoginData Scenario.alice_access Scenario.alice_refresh
       (User.mkPublic 1 "alice" "a@x.com")).
Proof. reflexivity. Qed.

Example scenario_tokens :
  Scenario.alice_access = "J1.1111.1111111111111111111.access-secret"%string.
Proof. reflexivity. Qed.

Lemma scenario_reachable : Scenario.reachable Scenario.logged_in.
Proof. exists Scenario.session. reflexivity. Qed.

(** ** Bounded retention of refresh tokens *)

(** C2. In every store the server can reach from the empty one, by any
    sequence of requests and direct store calls, each user's
    [refreshTokens] holds at most 5 entries.  [addRefreshToken(userId,
    token)] leaves the store as it is when no user has that id; otherwise
    it rewrites only that user's list: below capacity the token is
    appended, at capacity the front (oldest) entry is dropped first and the
    token appended to the rest. *)
Theorem refreshTokens_bounded_fifo `{Bcrypt} `{Jwt} `{EmailRegex} (cfg : jwtConfig) :
  (forall users u,
     Server.reachable cfg users -> In u users ->
     List.length (User.refreshTokens u) <= 5)
  /\ (forall users userId token,
        User.findById users userId = None ->
        User.addRefreshToken users userId token = users)
  /\ (forall users userId token u,
        User.findById users userId = Some u ->
        let toks := User.refreshTokens u in
        exists before after toks',
          users = before ++ u :: after
          /\ (forall v, In v before -> User.id v <> userId)
          /\ User.addRefreshToken users userId token =
               before ++ User.mkUser (User.id u) (User.username u) (User.email u)
                           (User.password u) toks' :: after
          /\ (List.length toks < 5 -> toks' = toks ++ [token])
          /\ (5 <= List.length toks ->
              exists oldest rest, toks = oldest :: rest /\ toks' = rest ++ [token])).
Proof.
  split; [|split].
  - intros users u Hr Hin.
    destruct (reachable_well_formed cfg users Hr) as (Hlen & _).
    rewrite Forall_forall in Hlen. now apply Hlen.
  - intros users userId token Hn. unfold User.addRefreshToken. now rewrite Hn.
  - intros users userId token u Hu toks.
    unfold User.addRefreshToken. rewrite Hu. unfold User.findById in Hu.
    destruct (UserFacts.mutate_first_found _
                (fun u => User.set_refreshTokens u (retained (User.refreshTokens u) token))
                _ _ Hu) as (before & after & Hs & Hb & _ & Hm).
    exists before, after, (retained toks token). repeat split; auto.
    + intros v Hv. apply Hb in Hv. now apply Nat.eqb_neq.
    + unfold retained. intros Hlt.
      destruct (Nat.leb_spec 5 (List.length toks)); [lia|reflexivity].
    + unfold retained. intros Hge.
      destruct (Nat.leb_spec 5 (List.length toks)); [|lia].
      destruct toks as [|oldest rest] eqn:Et; [simpl in Hge; lia|].
      exists oldest, rest. split; reflexivity.
Qed.

(** C2 at work: alice's list after her login is within the bound, and a
    sixth token pushes the oldest of five out. *)
Lemma refreshTokens_bounded_fifo_witness :
  List.length (User.refreshTokens Scenario.alice) <= 5
  /\ User.addRefreshToken
       [User.mkUser 1 "alice" "a@x.com" "$secret1" ["t1"; "t2"; "t3"; "t4"; "t5"]]
       2 "t6"
     = [User.mkUser 1 "alice" "a@x.com" "$secret1" ["t1"; "t2"; "t3"; "t4"; "t5"]].
Proof.
  split.
  - apply (proj1 (@refreshTokens_bounded_fifo model_bcrypt model_jwt model_regex
                    Model.config) Scenario.logged_in Scenario.alice).
    + exists Scenario.session. reflexivity.
    + simpl. left. reflexivity.
  - apply (proj1 (proj2 (@refreshTokens_bounded_fifo model_bcrypt model_jwt model_regex
                           Model.config))).
    reflexivity.
Defined.

Example addRefreshToken_evicts_oldest :
  User.addRefreshToken
    [User.mkUser 1 "alice" "a@x.com" "$secret1" ["t1"; "t2"; "t3"; "t4"; "t5"]]
    1 "t6"
  = [User.mkUser 1 "alice" "a@x.com" "$secret1" ["t2"; "t3"; "t4"; "t5"; "t6"]].
Proof. reflexivity. Qed.

(** ** Registration *)

(** ** The auth guard *)

Lemma render_injective (s1 s2 : Guard.state) :
  Guard.render s1 = Guard.render s2 -> s1 = s2.
Proof.
  destruct s1 as [i1|[]], s2 as [i2|[]]; simpl; intros Heq;
    try reflexivity; try discriminate Heq.
  now injection Heq as ->.
Qed.

Example authenticate_alice :
  @AuthMiddleware.authenticate model_jwt Model.config Scenario.logged_in
    (Some ("Bearer " ++ Scenario.alice_access)%string) 5
  = AuthMiddleware.Next (User.mkPublic 1 "alice" "a@x.com").
Proof. reflexivity. Qed.

Example authenticate_expired :
  @AuthMiddleware.authenticate model_jwt Model.config Scenario.logged_in
    (Some ("Bearer " ++ Scenario.alice_access)%string) 19
  = AuthMiddleware.Respond (error 401 "Token has expired. Please refresh your token.").
Proof. reflexivity. Qed.

Example authenticate_no_scheme :
  @AuthMiddleware.authenticate model_jwt Model.config Scenario.logged_in
    (Some Scenario.alice_access) 5
  = AuthMiddleware.Respond (error 401 "Authentication required. No token provided.").
Proof. reflexivity. Qed.

Example authenticate_refresh_token_refused :
  @AuthMiddleware.authenticate model_jwt Model.config Scenario.logged_in
    (Some ("Bearer " ++ Scenario.alice_refresh)%string) 5
  = AuthMiddleware.Respond (error 401 "Invalid token.").
Proof. reflexivity. Qed.

Example authenticate_unknown_subject :
  @AuthMiddleware.authenticate model_jwt Model.config User.empty
    (Some ("Bearer " ++ Scenario.alice_access)%string) 5
  = AuthMiddleware.Respond (error 401 "User not found.").
Proof. reflexivity. Qed.

(** ** Requests without a token *)

(** C10. A logout or refresh request whose [refreshToken] field is missing
    or empty is answered 400 with [Refresh token is required], and the
    store is handed back as it was. *)
Theorem missing_refresh_token_is_400 `{Jwt} (cfg : jwtConfig) (users : User.store)
    (refreshToken : option string) (now : nat) :
  refreshToken = None \/ refreshToken = Some ""%string ->
  AuthRoutes.logout cfg users refreshToken now =
    (error 400 "Refresh token is required", users)
  /\ AuthRoutes.refresh_token cfg users refreshToken now =
       (error 400 "Refresh token is required", users).
Proof.
  intros [-> | ->]; split; reflexivity.
Qed.

Lemma missing_refresh_token_is_400_witness :
  Scenario.logout Scenario.logged_in (Some ""%string) 5 =
    (error 400 "Refresh token is required", Scenario.logged_in)
  /\ Scenario.refresh_token Scenario.logged_in (Some ""%string) 5 =
       (error 400 "Refresh token is required", Scenario.logged_in).
Proof.
  apply (@missing_refresh_token_is_400 model_jwt Model.config).
  right. reflexivity.
Defined.

(** ** Verification of refresh tokens *)

Section RefreshFacts.
Context `{Jwt}.
Variable cfg : jwtConfig.

Lemma hasRefreshToken_removed (users : User.store) (i : nat) (token : string) :
  User.hasRefreshToken (User.removeRefreshToken users i token) i token = false.
Proof.
  unfold User.hasRefreshToken at 1.
  destruct (User.findById users i) as [u|] eqn:Hu.
  - destruct (removeRefreshToken_split users i token u Hu)
      as (before & after & Hs & Hb & ->).
    unfold User.findById. rewrite UserFacts.find_split.
    + simpl. destruct (includes _ token) eqn:Hi; [|reflexivity].
      apply UserFacts.includes_In in Hi. now apply remove_In in Hi.
    + intros v Hv. apply Nat.eqb_neq. now apply Hb.
    + simpl. apply Nat.eqb_eq. eapply findById_id; eassumption.
  - unfold User.removeRefreshToken. now rewrite Hu, Hu.
Qed.

(** The three ways [verifyRefreshToken] comes out. *)
Lemma verifyRefreshToken_stored (users : User.store) (token : string) (now : nat)
    (decoded : payload) :
  jwt_verify token (secret (refreshToken cfg)) now = Return decoded ->
  User.hasRefreshToken users (userId decoded) token = true ->
  TokenUtils.verifyRefreshToken cfg users token now =
    TokenUtils.mkVerification true false (Some (userId decoded)).
Proof.
  intros Hv Hs. unfold TokenUtils.verifyRefreshToken. now rewrite Hv, Hs.
Qed.

Lemma verifyRefreshToken_not_stored (users : User.store) (token : string) (now : nat)
    (decoded : payload) :
  jwt_verify token (secret (refreshToken cfg)) now = Return decoded ->
  User.hasRefreshToken users (userId decoded) token = false ->
  TokenUtils.verifyRefreshToken cfg users token now =
    TokenUtils.mkVerification false false None.
Proof.
  intros Hv Hs. unfold TokenUtils.verifyRefreshToken. now rewrite Hv, Hs.
Qed.

Lemma verifyRefreshToken_thrown (users : User.store) (token : string) (now : nat)
    (e : jwt_error) :
  jwt_verify token (secret (refreshToken cfg)) now = Throw e ->
  TokenUtils.verifyRefreshToken cfg users token now =
    TokenUtils.mkVerification false
      (match e with TokenExpiredError => true | JsonWebTokenError => false end) None.
Proof.
  intros Hv. unfold TokenUtils.verifyRefreshToken. rewrite Hv. now destruct e.
Qed.

Lemma falsy_supplied (token : string) : token <> ""%string -> falsy (Some token) = false.
Proof. intros Hne. simpl. now apply String.eqb_neq. Qed.

(** The store a logout with a supplied token leaves behind. *)
Lemma logout_store (users : User.store) (token : string) (now : nat) :
  token <> ""%string ->
  snd (AuthRoutes.logout cfg users (Some token) now) =
    match jwt_signed_payload token (secret (refreshToken cfg)) with
    | Some decoded =>
        if (exp decoded <=? now)%nat then users
        else if User.hasRefreshToken users (userId decoded) token
                && negb (userId decoded =? 0)%nat
             then User.removeRefreshToken users (userId decoded) token
             else users
    | None => users
    end.
Proof.
  intros Hne. unfold AuthRoutes.logout. rewrite (falsy_supplied _ Hne).
  unfold TokenUtils.verifyRefreshToken, jwt_verify. simpl.
  destruct (jwt_signed_payload token _) as [d|]; [|reflexivity].
  destruct (exp d <=? now)%nat; [reflexivity|].
  destruct (User.hasRefreshToken users (userId d) token); reflexivity.
Qed.

Lemma logout_response (users : User.store) (token : string) (now : nat) :
  token <> ""%string ->
  fst (AuthRoutes.logout cfg users (Some token) now) =
    mkResponse 200 "success" (Some "Logged out successfully"%string) NoData.
Proof.
  intros Hne. unfold AuthRoutes.logout. now rewrite (falsy_supplied _ Hne).
Qed.

Lemma logout_twice_store (users : User.store) (token : string) (t1 t2 : nat) :
  token <> ""%string -> t1 <= t2 ->
  snd (AuthRoutes.logout cfg (snd (AuthRoutes.logout cfg users (Some token) t1))
         (Some token) t2)
  = snd (AuthRoutes.logout cfg users (Some token) t1).
Proof.
  intros Hne Hle. rewrite (logout_store _ token t2 Hne), (logout_store users token t1 Hne).
  destruct (jwt_signed_payload token _) as [d|]; [|reflexivity].
  destruct (Nat.leb_spec (exp d) t2); [reflexivity|].
  destruct (Nat.leb_spec (exp d) t1); [lia|].
  destruct (User.hasRefreshToken users (userId d) token) eqn:Hs; simpl.
  - destruct (userId d =? 0)%nat; simpl.
    + now rewrite Hs.
    + now rewrite hasRefreshToken_removed.
  - now rewrite Hs.
Qed.

End RefreshFacts.

(** In a reachable store ids start at 1, so a stored subject is truthy. *)
Lemma stored_subject_nonzero `{Bcrypt} `{Jwt} `{EmailRegex} (cfg : jwtConfig)
    (users : User.store) (i : nat) (token : string) :
  Server.reachable cfg users ->
  User.hasRefreshToken users i token = true ->
  i <> 0.
Proof.
  intros Hr Hs. unfold User.hasRefreshToken in Hs.
  destruct (User.findById users i) as [u|] eqn:Hu; [|discriminate].
  destruct (reachable_well_formed cfg users Hr) as (_ & _ & _ & Hids).
  pose proof (findById_id _ _ _ Hu) as Hi.
  unfold User.findById in Hu. apply find_some in Hu. destruct Hu as [Hin _].
  apply (in_map User.id) in Hin. rewrite Hids, in_seq in Hin. lia.
Qed.

(** ** Logout *)

(** C5. For every supplied (non-empty) refresh-token string, in every
    store and at every time, logout answers the one success response,
    whether the token is forged, expired, unknown or already removed; so
    does a second logout with the same token, which also leaves the store
    of the first untouched.  When the token verifies and is stored for its
    subject in a reachable store, logout removes it from that subject's
    list; in every other case the store is as before. *)
Theorem logout_always_succeeds `{Bcrypt} `{Jwt} `{EmailRegex} (cfg : jwtConfig)
    (users : User.store) (token : string) (now : nat) :
  token <> ""%string ->
  let ok := mkResponse 200 "success" (Some "Logged out successfully"%string) NoData in
  let once := AuthRoutes.logout cfg users (Some token) now in
  fst once = ok
  /\ (forall later, fst (AuthRoutes.logout cfg (snd once) (Some token) later) = ok)
  /\ (forall later, now <= later ->
        snd (AuthRoutes.logout cfg (snd once) (Some token) later) = snd once)
  /\ (forall users' token' now',
        token' <> ""%string ->
        fst (AuthRoutes.logout cfg users' (Some token') now') = fst once)
  /\ (forall decoded,
        Server.reachable cfg users ->
        jwt_verify token (secret (refreshToken cfg)) now = Return decoded ->
        User.hasRefreshToken users (userId decoded) token = true ->
        snd once = User.removeRefreshToken users (userId decoded) token
        /\ User.hasRefreshToken (snd once) (userId decoded) token = false)
  /\ (TokenUtils.valid (TokenUtils.verifyRefreshToken cfg users token now) = false ->
      snd once = users).
Proof.
  intros Hne ok once. subst once ok.
  split; [now apply logout_response|].
  split; [intros later; now apply logout_response|].
  split; [intros later Hle; now apply logout_twice_store|].
  split; [intros users' token' now' Hne'; now rewrite !logout_response|].
  split.
  - intros decoded Hr Hv Hs.
    pose proof (stored_subject_nonzero cfg users _ _ Hr Hs) as Hid.
    unfold AuthRoutes.logout. rewrite (falsy_supplied _ Hne). cbn [str].
    rewrite (verifyRefreshToken_stored cfg users token now decoded Hv Hs). simpl.
    apply Nat.eqb_neq in Hid. rewrite Hid. simpl.
    split; [reflexivity|apply hasRefreshToken_removed].
  - intros Hinvalid. unfold AuthRoutes.logout. rewrite (falsy_supplied _ Hne).
    cbn [str snd]. rewrite Hinvalid. simpl.
    now destruct (TokenUtils.v_userId _).
Qed.

(** C5 at work: alice logs out at second 5 with the token of her login. *)
Lemma logout_always_succeeds_witness :
  fst (Scenario.logout Scenario.logged_in (Some Scenario.alice_refresh) 5) =
    mkResponse 200 "success" (Some "Logged out successfully"%string) NoData.
Proof.
  refine (proj1 (@logout_always_succeeds model_bcrypt model_jwt model_regex
                   Model.config Scenario.logged_in Scenario.alice_refresh 5 _)).
  discriminate.
Defined.

Example logout_removes_token :
  snd (Scenario.logout Scenario.logged_in (Some Scenario.alice_refresh) 5) =
    [User.mkUser 1 "alice" "a@x.com" "$secret1" []].
Proof. reflexivity. Qed.

Example logout_forged_token :
  Scenario.logout Scenario.logged_in (Some "garbage"%string) 5 =
    (mkResponse 200 "success" (Some "Logged out successfully"%string) NoData,
     Scenario.logged_in).
Proof. reflexivity. Qed.

(** ** Login *)

(** With fields that are strings, a login attempt that names no stored
    user and a login attempt that names a stored user with a password that
    does not match, both supplying a username and a password, are answered
    alike: 401 with
    [Invalid credentials], the store untouched.  More generally one and
    the same request is answered alike by a store in which its user is
    unknown and by a store in which its password is wrong. *)
Theorem login_failures_indistinguishable `{Bcrypt} `{Jwt} (cfg : jwtConfig)
    (users1 users2 : User.store) (name1 pass1 name2 pass2 : string)
    (now1 now2 : nat) (known : User.user) :
  name1 <> ""%string -> pass1 <> ""%string ->
  name2 <> ""%string -> pass2 <> ""%string ->
  User.findByCredentials users1 name1 = None ->
  User.findByCredentials users2 name2 = Some known ->
  User.comparePassword pass2 (User.password known) = false ->
  AuthRoutes.login cfg users1 (Some name1) (Some pass1) now1 =
    (error 401 "Invalid credentials", users1)
  /\ AuthRoutes.login cfg users2 (Some name2) (Some pass2) now2 =
       (error 401 "Invalid credentials", users2)
  /\ fst (AuthRoutes.login cfg users1 (Some name1) (Some pass1) now1) =
     fst (AuthRoutes.login cfg users2 (Some name2) (Some pass2) now2)
  /\ (forall name pass stored,
        User.findByCredentials users1 (str name) = None ->
        User.findByCredentials users2 (str name) = Some stored ->
        User.comparePassword (str pass) (User.password stored) = false ->
        fst (AuthRoutes.login cfg users1 name pass now1) =
        fst (AuthRoutes.login cfg users2 name pass now2)).
Proof.
  intros Hn1 Hp1 Hn2 Hp2 Hnone Hsome Hbad.
  assert (E1 : AuthRoutes.login cfg users1 (Some name1) (Some pass1) now1 =
               (error 401 "Invalid credentials", users1)).
  { unfold AuthRoutes.login.
    rewrite (falsy_supplied _ Hn1), (falsy_supplied _ Hp1). simpl.
    now rewrite Hnone. }
  assert (E2 : AuthRoutes.login cfg users2 (Some name2) (Some pass2) now2 =
               (error 401 "Invalid credentials", users2)).
  { unfold AuthRoutes.login.
    rewrite (falsy_supplied _ Hn2), (falsy_supplied _ Hp2). simpl.
    now rewrite Hsome, Hbad. }
  split; [exact E1|]. split; [exact E2|]. split; [now rewrite E1, E2|].
  intros name pass stored Hnone' Hsome' Hbad'.
  unfold AuthRoutes.login.
  destruct (falsy name || falsy pass); [reflexivity|].
  now rewrite Hnone', Hsome', Hbad'.
Qed.

(** nobody against alice with a wrong password. *)
Lemma login_failures_indistinguishable_witness :
  fst (Scenario.login Scenario.registered (Some "nobody"%string) (Some "secret1"%string) 4) =
  fst (Scenario.login Scenario.registered (Some "alice"%string) (Some "wrong-password"%string) 9).
Proof.
  apply (@login_failures_indistinguishable model_bcrypt model_jwt Model.config
           Scenario.registered Scenario.registered
           "nobody" "secret1" "alice" "wrong-password" 4 9
           (User.mkUser 1 "alice" "a@x.com" "$secret1" []));
    try discriminate; reflexivity.
Defined.

(** ** Key separation *)

(** C3. With distinct access and refresh secrets, a token minted by
    [generateAccessToken] is refused by [verifyRefreshToken] as invalid and
    not as expired, at every time and for every subject and store, and a
    token minted by [generateRefreshToken] is refused by
    [verifyAccessToken] in the same way. *)
Theorem key_separation `{Jwt} (cfg : jwtConfig) (users : User.store)
    (subject issued now : nat) :
  secret (accessToken cfg) <> secret (refreshToken cfg) ->
  (forall token,
     TokenUtils.generateAccessToken cfg subject issued = Some token ->
     TokenUtils.verifyRefreshToken cfg users token now =
       TokenUtils.mkVerification false false None
     /\ Guard.verify token (secret (refreshToken cfg)) now = Guard.Invalid)
  /\ (forall token users',
        TokenUtils.generateRefreshToken cfg users subject issued = Some (token, users') ->
        TokenUtils.verifyAccessToken cfg token now =
          TokenUtils.mkVerification false false None
        /\ Guard.verify token (secret (accessToken cfg)) now = Guard.Invalid).
Proof.
  intros Hkeys. split.
  - intros token Hs. unfold TokenUtils.generateAccessToken in Hs.
    assert (Hv : jwt_verify token (secret (refreshToken cfg)) now = Throw JsonWebTokenError).
    { unfold jwt_verify.
      rewrite (jwt_payload_other_secret _ _ _ _ _ (secret (refreshToken cfg)) Hs);
        [reflexivity|congruence]. }
    unfold TokenUtils.verifyRefreshToken, Guard.verify. now rewrite Hv.
  - intros token users' Hs. unfold TokenUtils.generateRefreshToken in Hs.
    destruct (jwt_sign subject _ _ issued) as [tok|] eqn:Hsig; [|discriminate].
    injection Hs as <- _.
    assert (Hv : jwt_verify tok (secret (accessToken cfg)) now = Throw JsonWebTokenError).
    { unfold jwt_verify.
      rewrite (jwt_payload_other_secret _ _ _ _ _ (secret (accessToken cfg)) Hsig);
        [reflexivity|congruence]. }
    unfold TokenUtils.verifyAccessToken, Guard.verify. now rewrite Hv.
Qed.

(** C3 at work: alice's access token against the refresh secret, long
    after it expired. *)
Lemma key_separation_witness :
  @TokenUtils.verifyRefreshToken model_jwt Model.config Scenario.logged_in
    Scenario.alice_access 1000
  = TokenUtils.mkVerification false false None.
Proof.
  refine (proj1 (proj1 (@key_separation model_jwt Model.config Scenario.logged_in
                          1 4 1000 _) Scenario.alice_access _)).
  - discriminate.
  - reflexivity.
Defined.

(** ** Refresh *)

Lemma hasRefreshToken_added (users : User.store) (i : nat) (token : string)
    (u : User.user) :
  User.findById users i = Some u ->
  User.hasRefreshToken (User.addRefreshToken users i token) i token = true.
Proof.
  intros Hu. unfold User.addRefreshToken. rewrite Hu.
  pose proof (findById_id _ _ _ Hu) as Hi. unfold User.findById in Hu.
  destruct (UserFacts.mutate_first_found _
              (fun u => User.set_refreshTokens u (retained (User.refreshTokens u) token))
              _ _ Hu) as (before & after & Hs & Hb & Hp & Hm).
  unfold retained in Hm. rewrite Hm.
  unfold User.hasRefreshToken, User.findById. rewrite UserFacts.find_split; auto.
  simpl. apply UserFacts.includes_In, in_or_app. right. now left.
Qed.

Lemma findByCredentials_findById (users : User.store) (name : string) (u : User.user) :
  User.findByCredentials users name = Some u ->
  exists w, User.findById users (User.id u) = Some w.
Proof.
  intros Hf. apply find_some in Hf. destruct Hf as [Hin _].
  destruct (User.findById users (User.id u)) as [w|] eqn:Hw; [now exists w|].
  pose proof (find_none _ _ Hw u Hin) as Hn. simpl in Hn.
  now rewrite Nat.eqb_refl in Hn.
Qed.

(** A refresh never writes to the store. *)
Lemma refresh_token_store `{Jwt} (cfg : jwtConfig) (users : User.store)
    (token : option string) (now : nat) :
  snd (AuthRoutes.refresh_token cfg users token now) = users.
Proof.
  unfold AuthRoutes.refresh_token.
  repeat match goal with
         | |- context [if ?b then _ else _] => destruct b; simpl
         | |- context [match ?o with Some _ => _ | None => _ end] => destruct o; simpl
         end; reflexivity.
Qed.

(** What a successful login has done. *)
Lemma login_success `{Bcrypt} `{Jwt} (cfg : jwtConfig) (users users' : User.store)
    (name pass : option string) (issued : nat) (access refresh : string)
    (pub : User.publicUser) (msg : option string) :
  AuthRoutes.login cfg users name pass issued =
    (mkResponse 200 "success" msg (LoginData access refresh pub), users') ->
  exists u,
    User.findByCredentials users (str name) = Some u
    /\ pub = User.public u
    /\ jwt_sign (User.id u) (secret (accessToken cfg))
         (expiresIn (accessToken cfg)) issued = Some access
    /\ jwt_sign (User.id u) (secret (refreshToken cfg))
         (expiresIn (refreshToken cfg)) issued = Some refresh
    /\ users' = User.addRefreshToken users (User.id u) refresh.
Proof.
  unfold AuthRoutes.login, TokenUtils.generateAccessToken,
    TokenUtils.generateRefreshToken, internal_error, error.
  destruct (falsy name || falsy pass); [discriminate|].
  destruct (User.findByCredentials users (str name)) as [u|]; [|discriminate].
  destruct (negb _); [discriminate|].
  destruct (jwt_sign (User.id u) (secret (accessToken cfg)) _ issued) as [a|] eqn:Ha;
    [|discriminate].
  destruct (jwt_sign (User.id u) (secret (refreshToken cfg)) _ issued) as [r|] eqn:Hr;
    [|discriminate].
  intros [= _ <- <- <- <-]. exists u. repeat split; assumption.
Qed.

(** C1, as the code has it.  A supplied refresh token that verifies under
    the refresh secret and is not expired, but is not in its subject's
    stored list, is refused with 401 [Invalid refresh token] and the store
    untouched: the very answer a forged token gets, and not the answer for
    an expired one.  In particular, in a reachable store, once a logout
    with the token has been served, a later refresh with the identical
    token gets that answer. *)
Theorem revoked_refresh_is_invalid `{Bcrypt} `{Jwt} `{EmailRegex} (cfg : jwtConfig)
    (users : User.store) (token : string) (now : nat) (decoded : payload) :
  token <> ""%string ->
  jwt_verify token (secret (refreshToken cfg)) now = Return decoded ->
  (User.hasRefreshToken users (userId decoded) token = false ->
   AuthRoutes.refresh_token cfg users (Some token) now =
     (error 401 "Invalid refresh token", users)
   /\ AuthRoutes.refresh_token cfg users (Some token) now <>
        (error 401 "Refresh token has expired. Please login again.", users)
   /\ (forall forged,
         forged <> ""%string ->
         jwt_verify forged (secret (refreshToken cfg)) now = Throw JsonWebTokenError ->
         AuthRoutes.refresh_token cfg users (Some forged) now =
         AuthRoutes.refresh_token cfg users (Some token) now))
  /\ (forall earlier,
        Server.reachable cfg users -> earlier <= now ->
        let users' := snd (AuthRoutes.logout cfg users (Some token) earlier) in
        AuthRoutes.refresh_token cfg users' (Some token) now =
          (error 401 "Invalid refresh token", users')).
Proof.
  intros Hne Hv.
  assert (Hrefused : forall s,
            User.hasRefreshToken s (userId decoded) token = false ->
            AuthRoutes.refresh_token cfg s (Some token) now =
              (error 401 "Invalid refresh token", s)).
  { intros s Hs. unfold AuthRoutes.refresh_token.
    rewrite (falsy_supplied _ Hne). cbn [str].
    now rewrite (verifyRefreshToken_not_stored cfg s token now decoded Hv Hs). }
  split.
  - intros Hs. rewrite (Hrefused users Hs). split; [reflexivity|].
    split; [discriminate|].
    intros forged Hf Hthrown. unfold AuthRoutes.refresh_token.
    rewrite (falsy_supplied _ Hf). cbn [str].
    now rewrite (verifyRefreshToken_thrown cfg users forged now _ Hthrown).
  - intros earlier Hr Hle users'. apply Hrefused. subst users'.
    rewrite (logout_store cfg users token earlier Hne).
    unfold jwt_verify in Hv.
    destruct (jwt_signed_payload token _) as [d|]; [|discriminate].
    destruct (Nat.leb_spec (exp d) now); [discriminate|].
    injection Hv as ->.
    destruct (Nat.leb_spec (exp decoded) earlier); [lia|].
    destruct (User.hasRefreshToken users (userId decoded) token) eqn:Hs;
      [|exact Hs].
    pose proof (stored_subject_nonzero cfg users _ _ Hr Hs) as Hid.
    apply Nat.eqb_neq in Hid. rewrite Hid. simpl.
    apply hasRefreshToken_removed.
Qed.

(** C1 at work: alice logs out at second 5 and presents the token again
    at second 6, well before its expiry at second 64. *)
Lemma revoked_refresh_is_invalid_witness :
  Scenario.refresh_token
    (snd (Scenario.logout Scenario.logged_in (Some Scenario.alice_refresh) 5))
    (Some Scenario.alice_refresh) 6
  = (error 401 "Invalid refresh token",
     snd (Scenario.logout Scenario.logged_in (Some Scenario.alice_refresh) 5)).
Proof.
  refine (proj2 (@revoked_refresh_is_invalid model_bcrypt model_jwt model_regex
                   Model.config Scenario.logged_in Scenario.alice_refresh 6
                   (mkPayload 1 4 64) _ _) 5 _ _).
  - discriminate.
  - reflexivity.
  - exists Scenario.session. reflexivity.
  - repeat constructor.
Defined.

(** C1 as the specification words it does not hold: the logged-out token,
    still valid under the refresh secret and unexpired, is answered
    exactly like a forged string, so no outcome distinct from the invalid
    one marks it as revoked. *)
Lemma revoked_refresh_is_not_distinct :
  let users := snd (Scenario.logout Scenario.logged_in (Some Scenario.alice_refresh) 5) in
  @jwt_verify model_jwt Scenario.alice_refresh (secret (refreshToken Model.config)) 6
    = Return (mkPayload 1 4 64)
  /\ User.hasRefreshToken users 1 Scenario.alice_refresh = false
  /\ @jwt_verify model_jwt "garbage" (secret (refreshToken Model.config)) 6
       = Throw JsonWebTokenError
  /\ Scenario.refresh_token users (Some Scenario.alice_refresh) 6
     = Scenario.refresh_token users (Some "garbage"%string) 6
  /\ fst (Scenario.refresh_token users (Some Scenario.alice_refresh) 6)
     = error 401 "Invalid refresh token".
Proof. repeat split. Qed.

(** C4, as the code has it.  A refresh never changes the credential
    store.  After a successful login, a refresh with the refresh token of
    that login, at any time before the token expires, answers 200 with an
    access token only, minted for the same subject at the time of the
    refresh; the refresh token stays in the subject's list, so a further
    refresh with it succeeds as well.  The access token returned differs
    from the one the login issued exactly when the refresh is served at
    another clock second than the login. *)
Theorem refresh_does_not_rotate `{Bcrypt} `{Jwt} (cfg : jwtConfig)
    (users users' : User.store) (name pass : option string) (issued : nat)
    (access refresh : string) (pub : User.publicUser) :
  AuthRoutes.login cfg users name pass issued =
    (mkResponse 200 "success" (Some "Login successful"%string)
       (LoginData access refresh pub), users') ->
  (forall token now, snd (AuthRoutes.refresh_token cfg users' token now) = users')
  /\ User.hasRefreshToken users' (User.pub_id pub) refresh = true
  /\ (forall now,
        now < issued + expiresIn (refreshToken cfg) ->
        exists access',
          TokenUtils.generateAccessToken cfg (User.pub_id pub) now = Some access'
          /\ AuthRoutes.refresh_token cfg users' (Some refresh) now =
               (mkResponse 200 "success" None (AccessData access'), users')
          /\ (access' <> access <-> now <> issued))
  /\ (forall now again,
        now < issued + expiresIn (refreshToken cfg) ->
        again < issued + expiresIn (refreshToken cfg) ->
        exists access'',
          AuthRoutes.refresh_token cfg
            (snd (AuthRoutes.refresh_token cfg users' (Some refresh) now))
            (Some refresh) again =
          (mkResponse 200 "success" None (AccessData access''), users')).
Proof.
  intros Hlogin.
  destruct (login_success cfg _ _ _ _ _ _ _ _ _ Hlogin)
    as (u & Hfound & -> & Haccess & Hrefresh & ->).
  destruct (findByCredentials_findById _ _ _ Hfound) as (w & Hw).
  set (users' := User.addRefreshToken users (User.id u) refresh) in *.
  assert (Hstored : User.hasRefreshToken users' (User.id u) refresh = true)
    by (eapply hasRefreshToken_added; eassumption).
  assert (Hserve : forall now,
            now < issued + expiresIn (refreshToken cfg) ->
            exists access',
              TokenUtils.generateAccessToken cfg (User.id u) now = Some access'
              /\ AuthRoutes.refresh_token cfg users' (Some refresh) now =
                   (mkResponse 200 "success" None (AccessData access'), users')
              /\ (access' <> access <-> now <> issued)).
  { intros now Hnow.
    assert (Hkey : secret (accessToken cfg) <> ""%string).
    { intros Hk. apply (jwt_sign_secret (User.id u) _ (expiresIn (accessToken cfg)) issued) in Hk.
      congruence. }
    destruct (jwt_sign (User.id u) (secret (accessToken cfg))
                (expiresIn (accessToken cfg)) now) as [access'|] eqn:Hmint.
    2:{ apply jwt_sign_secret in Hmint. contradiction. }
    exists access'. split; [exact Hmint|]. split.
    - unfold AuthRoutes.refresh_token.
      rewrite (falsy_supplied _ (jwt_sign_truthy _ _ _ _ _ Hrefresh)). cbn [str].
      rewrite (verifyRefreshToken_stored cfg users' refresh now
                 (mkPayload (User.id u) issued (issued + expiresIn (refreshToken cfg)))).
      + simpl. unfold TokenUtils.generateAccessToken. now rewrite Hmint.
      + unfold jwt_verify. rewrite (jwt_payload_sign _ _ _ _ _ Hrefresh). simpl.
        destruct (Nat.leb_spec (issued + expiresIn (refreshToken cfg)) now);
          [lia|reflexivity].
      + exact Hstored.
    - split.
      + intros Hdiff ->. apply Hdiff. congruence.
      + intros Hdiff ->. apply Hdiff.
        pose proof (jwt_payload_sign _ _ _ _ _ Hmint) as P1.
        pose proof (jwt_payload_sign _ _ _ _ _ Haccess) as P2.
        congruence. }
  split; [intros token now; apply refresh_token_store|].
  split; [exact Hstored|].
  split; [exact Hserve|].
  intros now again Hnow Hagain. rewrite refresh_token_store.
  destruct (Hserve again Hagain) as (access'' & _ & Hr & _).
  now exists access''.
Qed.

(** C4 at work: alice refreshes at second 9 with the token of her login
    at second 4. *)
Lemma refresh_does_not_rotate_witness :
  User.hasRefreshToken Scenario.logged_in 1 Scenario.alice_refresh = true.
Proof.
  refine (proj1 (proj2 (@refresh_does_not_rotate model_bcrypt model_jwt Model.config
                          Scenario.registered Scenario.logged_in
                          (Some "alice"%string) (Some "secret1"%string) 4
                          Scenario.alice_access Scenario.alice_refresh
                          (User.mkPublic 1 "alice" "a@x.com") _))).
  reflexivity.
Defined.

Example refresh_later_second :
  Scenario.refresh_token Scenario.logged_in (Some Scenario.alice_refresh) 9 =
    (mkResponse 200 "success" None
       (AccessData "J1.111111111.111111111111111111111111.access-secret"),
     Scenario.logged_in).
Proof. reflexivity. Qed.

(** C4 as the specification words it does not hold: a refresh served in
    the same clock second as the login returns the very access token the
    login issued, not a distinct one. *)
Lemma refresh_same_second_same_access_token :
  Scenario.login Scenario.registered (Some "alice"%string) (Some "secret1"%string) 4 =
    (mkResponse 200 "success" (Some "Login successful"%string)
       (LoginData Scenario.alice_access Scenario.alice_refresh
          (User.mkPublic 1 "alice" "a@x.com")),
     Scenario.logged_in)
  /\ Scenario.refresh_token Scenario.logged_in (Some Scenario.alice_refresh) 4 =
       (mkResponse 200 "success" None (AccessData Scenario.alice_access),
        Scenario.logged_in).
Proof. split; reflexivity. Qed.

(** * Further properties of the store, the tokens and the routes *)

(** ** Ids and positions *)

Lemma find_id_seq (users : User.store) (start i : nat) :
  map User.id users = seq start (List.length users) ->
  find (fun u => (User.id u =? i)%nat) users =
    if (start <=? i)%nat then nth_error users (i - start) else None.
Proof.
  revert start. induction users as [|u rest IH]; intros start Hids; simpl.
  - destruct (start <=? i)%nat; [|reflexivity]. now destruct (i - start).
  - simpl in Hids. injection Hids as Hu Hrest. rewrite (IH _ Hrest), Hu.
    destruct (Nat.eqb_spec start i) as [->|Hne].
    + rewrite Nat.leb_refl, Nat.sub_diag. reflexivity.
    + destruct (Nat.leb_spec start i), (Nat.leb_spec (S start) i); try lia.
      * replace (i - start) with (S (i - S start)) by lia. reflexivity.
      * reflexivity.
Qed.

(** ** Registration in the store *)

Lemma find_app_fresh {A} (p : A -> bool) (l : list A) (x : A) :
  find p (l ++ [x]) =
    match find p l with
    | Some y => Some y
    | None => if p x then Some x else None
    end.
Proof.
  induction l as [|y l IH]; simpl; [reflexivity|].
  destruct (p y); [reflexivity|exact IH].
Qed.

(** ** What no request does *)

Lemma effect_identity `{Bcrypt} (users users' : User.store) :
  effect users users' ->
  exists added, map identity users' = map identity users ++ added
                /\ List.length added <= 1.
Proof.
  intros [->|n e p salt pub Hc|i t ->|i t ->].
  - exists []. rewrite app_nil_r. split; [reflexivity|simpl; lia].
  - apply create_Return in Hc. destruct Hc as (-> & _ & _).
    eexists [_]. rewrite map_app. split; [reflexivity|simpl; lia].
  - exists []. rewrite app_nil_r. split; [|simpl; lia].
    apply addRefreshToken_map. reflexivity.
  - exists []. rewrite app_nil_r. split; [|simpl; lia].
    apply removeRefreshToken_map. reflexivity.
Qed.

(** X3. No sequence of requests or store calls deletes a user or changes the
    id, username, email or password digest of one: the identities stored
    before are a prefix, in the same order, of the identities stored
    after, and so is what [getAll] lists. *)
Theorem users_only_grow `{Bcrypt} `{Jwt} `{EmailRegex} (cfg : jwtConfig)
    (users : User.store) (trace : list (Server.request * nat)) :
  exists added,
    map identity (Server.run cfg users trace) = map identity users ++ added
    /\ List.length added <= List.length trace
    /\ User.getAll (Server.run cfg users trace) =
         User.getAll users ++
         map (fun '(i, n, e, _) => User.mkPublic i n e) added.
Proof.
  assert (Hgrow : exists added,
            map identity (Server.run cfg users trace) = map identity users ++ added
            /\ List.length added <= List.length trace).
  { revert users. induction trace as [|[r now] rest IH]; intros users; simpl.
    - exists []. rewrite app_nil_r. split; [reflexivity|simpl; lia].
    - destruct (IH (Server.step cfg users r now)) as (later & Hl & Hn).
      destruct (effect_identity _ _ (step_effect cfg users r now)) as (first & Hf & Hm).
      exists (first ++ later). rewrite Hl, Hf, <- app_assoc.
      split; [reflexivity|]. rewrite length_app. lia. }
  destruct Hgrow as (added & Hid & Hlen). exists added.
  split; [exact Hid|]. split; [exact Hlen|].
  assert (Hpub : forall l, User.getAll l =
                           map (fun '(i, n, e, _) => User.mkPublic i n e) (map identity l)).
  { intros l. unfold User.getAll. rewrite map_map. reflexivity. }
  now rewrite !Hpub, Hid, map_app.
Qed.

(** ** Minting and verifying *)

(** X4. A token from [generateAccessToken] verifies as its subject until its
    expiry and as expired from then on.  A token from
    [generateRefreshToken] does the same against the store the call
    leaves, provided the subject is a stored user; minted for an id no
    user has, it is recorded nowhere, leaves the store as it was and never
    verifies as valid. *)
Theorem minted_tokens_verify `{Jwt} (cfg : jwtConfig) (users : User.store)
    (subject issued now : nat) :
  (forall token,
     TokenUtils.generateAccessToken cfg subject issued = Some token ->
     TokenUtils.verifyAccessToken cfg token now =
       if (now <? issued + expiresIn (accessToken cfg))%nat
       then TokenUtils.mkVerification true false (Some subject)
       else TokenUtils.mkVerification false true None)
  /\ (forall token users',
        TokenUtils.generateRefreshToken cfg users subject issued = Some (token, users') ->
        (User.findById users subject <> None ->
         TokenUtils.verifyRefreshToken cfg users' token now =
           if (now <? issued + expiresIn (refreshToken cfg))%nat
           then TokenUtils.mkVerification true false (Some subject)
           else TokenUtils.mkVerification false true None)
        /\ (User.findById users subject = None ->
            users' = users
            /\ TokenUtils.valid (TokenUtils.verifyRefreshToken cfg users' token now) = false)).
Proof.
  split.
  - intros token Hs. unfold TokenUtils.generateAccessToken in Hs.
    unfold TokenUtils.verifyAccessToken, jwt_verify.
    rewrite (jwt_payload_sign _ _ _ _ _ Hs). simpl.
    destruct (Nat.leb_spec (issued + expiresIn (accessToken cfg)) now),
             (Nat.ltb_spec now (issued + expiresIn (accessToken cfg)));
      try lia; reflexivity.
  - intros token users' Hs. unfold TokenUtils.generateRefreshToken in Hs.
    destruct (jwt_sign subject _ _ issued) as [tok|] eqn:Hsig; [|discriminate].
    injection Hs as <- <-.
    unfold TokenUtils.verifyRefreshToken, jwt_verify.
    rewrite (jwt_payload_sign _ _ _ _ _ Hsig). cbn [exp userId].
    split.
    + intros Hu. destruct (User.findById users subject) as [u|] eqn:Eu; [|congruence].
      destruct (Nat.leb_spec (issued + expiresIn (refreshToken cfg)) now),
               (Nat.ltb_spec now (issued + expiresIn (refreshToken cfg)));
        try lia; [reflexivity|].
      cbn [userId]. now rewrite (hasRefreshToken_added users subject tok u Eu).
    + intros Hu. unfold User.addRefreshToken. rewrite Hu. split; [reflexivity|].
      destruct (issued + expiresIn (refreshToken cfg) <=? now)%nat; [reflexivity|].
      cbn [userId]. unfold User.hasRefreshToken. now rewrite Hu.
Qed.

Lemma minted_tokens_verify_witness :
  @TokenUtils.verifyAccessToken model_jwt Model.config Scenario.alice_access 18
  = TokenUtils.mkVerification true false (Some 1).
Proof.
  refine (proj1 (@minted_tokens_verify model_jwt Model.config User.empty 1 4 18)
            Scenario.alice_access _).
  reflexivity.
Defined.

Example refresh_token_for_nobody :
  @TokenUtils.generateRefreshToken model_jwt Model.config Scenario.logged_in 7 4
  = Some ("J1111111.1111.1111111111111111111111111111111111111111111111111111111111111111.refresh-secret"%string,
          Scenario.logged_in).
Proof. reflexivity. Qed.

(** ** Eviction *)

Lemma findById_added (users : User.store) (i : nat) (token : string) (u : User.user) :
  User.findById users i = Some u ->
  User.findById (User.addRefreshToken users i token) i =
    Some (User.set_refreshTokens u (retained (User.refreshTokens u) token)).
Proof.
  intros Hu. unfold User.addRefreshToken. rewrite Hu.
  pose proof (findById_id _ _ _ Hu) as Hi. unfold User.findById in Hu.
  destruct (UserFacts.mutate_first_found _
              (fun u => User.set_refreshTokens u (retained (User.refreshTokens u) token))
              _ _ Hu) as (before & after & Hs & Hb & Hp & Hm).
  unfold retained in Hm. rewrite Hm.
  unfold User.findById. rewrite UserFacts.find_split; auto.
Qed.

Lemma includes_false (toks : list string) (token : string) :
  ~ In token toks -> includes toks token = false.
Proof.
  intros Hn. destruct (includes toks token) eqn:Hi; [|reflexivity].
  apply UserFacts.includes_In in Hi. contradiction.
Qed.

(** X5. When a user's list is full, one more token pushes out the token at
    its front: that token is no longer stored for the user (unless the
    list held it twice, or it is the token being added), every other
    token of the list still is, and so is the new one.  A refresh with the
    evicted token, still unexpired, is then answered 401 [Invalid refresh
    token].  Below capacity nothing is pushed out. *)
Theorem full_list_evicts_front `{Jwt} (cfg : jwtConfig) (users : User.store)
    (i : nat) (u : User.user) (token : string) :
  User.findById users i = Some u ->
  let users' := User.addRefreshToken users i token in
  User.hasRefreshToken users' i token = true
  /\ (List.length (User.refreshTokens u) < 5 ->
      forall t, In t (User.refreshTokens u) -> User.hasRefreshToken users' i t = true)
  /\ (forall oldest rest,
        User.refreshTokens u = oldest :: rest ->
        4 <= List.length rest ->
        (forall t, In t rest -> User.hasRefreshToken users' i t = true)
        /\ (~ In oldest rest -> oldest <> token ->
            User.hasRefreshToken users' i oldest = false
            /\ forall (now : nat) (decoded : payload),
                 oldest <> ""%string ->
                 jwt_verify oldest (secret (refreshToken cfg)) now = Return decoded ->
                 userId decoded = i ->
                 AuthRoutes.refresh_token cfg users' (Some oldest) now =
                   (error 401 "Invalid refresh token", users'))).
Proof.
  intros Hu users'.
  assert (Hhas : forall t, User.hasRefreshToken users' i t =
                           includes (retained (User.refreshTokens u) token) t).
  { intros t. unfold User.hasRefreshToken, users'.
    now rewrite (findById_added users i token u Hu). }
  split; [|split].
  - rewrite Hhas. apply UserFacts.includes_In. unfold retained, push.
    apply in_or_app. right. now left.
  - intros Hlt t Ht. rewrite Hhas. apply UserFacts.includes_In.
    unfold retained, push.
    destruct (Nat.leb_spec 5 (List.length (User.refreshTokens u))); [lia|].
    apply in_or_app. now left.
  - intros oldest rest Htoks Hfull.
    assert (Hret : retained (User.refreshTokens u) token = rest ++ [token]).
    { unfold retained, push, shift. rewrite Htoks. simpl List.length.
      destruct (Nat.leb_spec 5 (S (List.length rest))); [reflexivity|lia]. }
    split.
    + intros t Ht. rewrite Hhas, Hret. apply UserFacts.includes_In.
      apply in_or_app. now left.
    + intros Hfresh Hne.
      assert (Hgone : User.hasRefreshToken users' i oldest = false).
      { rewrite Hhas, Hret. apply includes_false.
        intros Hin. apply in_app_or in Hin. destruct Hin as [Hin|[Hin|[]]];
          [contradiction|congruence]. }
      split; [exact Hgone|].
      intros now decoded Hsupplied Hv Hid.
      unfold AuthRoutes.refresh_token.
      rewrite (falsy_supplied _ Hsupplied). cbn [str].
      rewrite (verifyRefreshToken_not_stored cfg users' oldest now decoded Hv);
        [reflexivity|].
      now rewrite Hid.
Qed.

Lemma full_list_evicts_front_witness :
  User.hasRefreshToken
    (User.addRefreshToken
       [User.mkUser 1 "alice" "a@x.com" "$secret1" ["t1"; "t2"; "t3"; "t4"; "t5"]]
       1 "t6") 1 "t1" = false.
Proof.
  refine (proj1 (proj2 (proj2 (proj2
            (@full_list_evicts_front model_jwt Model.config
               [User.mkUser 1 "alice" "a@x.com" "$secret1" ["t1"; "t2"; "t3"; "t4"; "t5"]]
               1 (User.mkUser 1 "alice" "a@x.com" "$secret1" ["t1"; "t2"; "t3"; "t4"; "t5"])
               "t6" _))
            "t1" ["t2"; "t3"; "t4"; "t5"] _ _) _ _)).
  - reflexivity.
  - reflexivity.
  - simpl. lia.
  - simpl. intros [Hd|[Hd|[Hd|[Hd|[]]]]]; discriminate Hd.
  - discriminate.
Defined.

(** ** Two logins in one second *)

Lemma find_mutate_first (q p : User.user -> bool) (f : User.user -> list string)
    (users : User.store) (v : User.user) :
  (forall u toks, q (User.set_refreshTokens u toks) = q u) ->
  find q users = Some v ->
  exists toks,
    find q (User.mutate_first p (fun u => User.set_refreshTokens u (f u)) users) =
      Some (User.set_refreshTokens v toks).
Proof.
  intros Hq. induction users as [|w rest IH]; simpl; [discriminate|].
  destruct (p w) eqn:Ep; simpl.
  - rewrite Hq. destruct (q w).
    + intros [= <-]. now exists (f w).
    + intros Hf. rewrite Hf. exists (User.refreshTokens v).
      now rewrite set_refreshTokens_same.
  - destruct (q w).
    + intros [= <-]. exists (User.refreshTokens w).
      now rewrite set_refreshTokens_same.
    + exact IH.
Qed.

Lemma findByCredentials_added (users : User.store) (i : nat) (token name : string)
    (v : User.user) :
  User.findByCredentials users name = Some v ->
  exists toks,
    User.findByCredentials (User.addRefreshToken users i token) name =
      Some (User.set_refreshTokens v toks).
Proof.
  intros Hv. unfold User.addRefreshToken.
  destruct (User.findById users i).
  - unfold User.findByCredentials in *.
    apply (find_mutate_first _ _ (fun u => retained (User.refreshTokens u) token) _ _);
      [reflexivity|exact Hv].
  - exists (User.refreshTokens v). now rewrite set_refreshTokens_same.
Qed.

(** The conditions under which [POST /login] answers 200, and its answer. *)
Lemma login_200 `{Bcrypt} `{Jwt} (cfg : jwtConfig) (users : User.store)
    (name pass : option string) (now : nat) (u : User.user) (access refresh : string) :
  falsy name || falsy pass = false ->
  User.findByCredentials users (str name) = Some u ->
  User.comparePassword (str pass) (User.password u) = true ->
  jwt_sign (User.id u) (secret (accessToken cfg))
    (expiresIn (accessToken cfg)) now = Some access ->
  jwt_sign (User.id u) (secret (refreshToken cfg))
    (expiresIn (refreshToken cfg)) now = Some refresh ->
  AuthRoutes.login cfg users name pass now =
    (mkResponse 200 "success" (Some "Login successful"%string)
       (LoginData access refresh (User.public u)),
     User.addRefreshToken users (User.id u) refresh).
Proof.
  intros Hf Hu Hp Ha Hr.
  unfold AuthRoutes.login, TokenUtils.generateAccessToken,
    TokenUtils.generateRefreshToken.
  now rewrite Hf, Hu, Hp, Ha, Hr.
Qed.

Lemma login_200_inv `{Bcrypt} `{Jwt} (cfg : jwtConfig) (users users' : User.store)
    (name pass : option string) (now : nat) (access refresh : string)
    (pub : User.publicUser) (msg : option string) :
  AuthRoutes.login cfg users name pass now =
    (mkResponse 200 "success" msg (LoginData access refresh pub), users') ->
  exists u,
    falsy name || falsy pass = false
    /\ User.findByCredentials users (str name) = Some u
    /\ User.comparePassword (str pass) (User.password u) = true
    /\ pub = User.public u
    /\ jwt_sign (User.id u) (secret (accessToken cfg))
         (expiresIn (accessToken cfg)) now = Some access
    /\ jwt_sign (User.id u) (secret (refreshToken cfg))
         (expiresIn (refreshToken cfg)) now = Some refresh
    /\ users' = User.addRefreshToken users (User.id u) refresh.
Proof.
  unfold AuthRoutes.login, TokenUtils.generateAccessToken,
    TokenUtils.generateRefreshToken, internal_error, error.
  destruct (falsy name || falsy pass); [discriminate|].
  destruct (User.findByCredentials users (str name)) as [u|]; [|discriminate].
  destruct (User.comparePassword (str pass) (User.password u)) eqn:Hp;
    simpl; [|discriminate].
  destruct (jwt_sign (User.id u) (secret (accessToken cfg)) _ now) as [a|] eqn:Ha;
    [|discriminate].
  destruct (jwt_sign (User.id u) (secret (refreshToken cfg)) _ now) as [r|] eqn:Hr;
    [|discriminate].
  intros [= _ <- <- <- <-]. exists u. repeat split; assumption.
Qed.

Lemma retained_twice (toks : list string) (token : string) :
  exists earlier, retained (retained toks token) token = earlier ++ [token; token].
Proof.
  unfold retained at 2. unfold push, shift.
  set (kept := if (5 <=? List.length toks)%nat then tl toks else toks).
  unfold retained, push, shift.
  destruct (Nat.leb_spec 5 (List.length (kept ++ [token]))) as [Hfull|Hroom].
  - rewrite length_app in Hfull. simpl in Hfull.
    destruct kept as [|k kept']; [simpl in Hfull; lia|].
    exists kept'. simpl. now rewrite <- app_assoc.
  - exists kept. now rewrite <- app_assoc.
Qed.

Lemma found_id_nonzero `{Bcrypt} `{Jwt} `{EmailRegex} (cfg : jwtConfig)
    (users : User.store) (i : nat) (u : User.user) :
  Server.reachable cfg users -> User.findById users i = Some u -> i <> 0.
Proof.
  intros Hr Hu. destruct (reachable_well_formed cfg users Hr) as (_ & _ & _ & Hids).
  unfold User.findById in Hu. rewrite (find_id_seq users 1 i Hids) in Hu.
  destruct i; [discriminate|lia].
Qed.

(** X6. Two successful logins of one user served in the same clock second
    return the same access token and the same refresh token; the token
    then sits twice at the end of the user's list, taking two of the five
    places, and one logout with it, before it expires, removes both
    entries, so that neither login can refresh any more. *)
Theorem same_second_logins_share_tokens `{Bcrypt} `{Jwt} `{EmailRegex}
    (cfg : jwtConfig) (users users1 : User.store) (name pass : option string)
    (now : nat) (access refresh : string) (pub : User.publicUser) :
  Server.reachable cfg users ->
  AuthRoutes.login cfg users name pass now =
    (mkResponse 200 "success" (Some "Login successful"%string)
       (LoginData access refresh pub), users1) ->
  let users2 := User.addRefreshToken users1 (User.pub_id pub) refresh in
  AuthRoutes.login cfg users1 name pass now =
    (mkResponse 200 "success" (Some "Login successful"%string)
       (LoginData access refresh pub), users2)
  /\ (exists u2 earlier,
        User.findById users2 (User.pub_id pub) = Some u2
        /\ User.refreshTokens u2 = earlier ++ [refresh; refresh])
  /\ (forall later,
        later < now + expiresIn (refreshToken cfg) ->
        let users3 := snd (AuthRoutes.logout cfg users2 (Some refresh) later) in
        User.hasRefreshToken users3 (User.pub_id pub) refresh = false
        /\ AuthRoutes.refresh_token cfg users3 (Some refresh) later =
             (error 401 "Invalid refresh token", users3)).
Proof.
  intros Hr Hlogin users2.
  destruct (login_200_inv cfg _ _ _ _ _ _ _ _ _ Hlogin)
    as (u & Hf & Hu & Hp & -> & Ha & Hs & ->).
  subst users2. cbn [User.pub_id User.public] in *.
  set (users1 := User.addRefreshToken users (User.id u) refresh).
  set (users2 := User.addRefreshToken users1 (User.id u) refresh).
  destruct (findByCredentials_findById _ _ _ Hu) as (w & Hw).
  pose proof (findById_added users (User.id u) refresh w Hw) as Hw1.
  fold users1 in Hw1.
  pose proof (findById_added users1 (User.id u) refresh _ Hw1) as Hw2.
  fold users2 in Hw2. cbn [User.refreshTokens User.set_refreshTokens] in Hw2.
  split; [|split].
  - destruct (findByCredentials_added users (User.id u) refresh _ _ Hu) as (toks & Hu1).
    fold users1 in Hu1.
    apply (login_200 cfg users1 name pass now (User.set_refreshTokens u toks));
      assumption.
  - destruct (retained_twice (User.refreshTokens w) refresh) as (earlier & He).
    eexists. exists earlier. split; [exact Hw2|]. exact He.
  - intros later Hlater.
    set (users3 := snd (AuthRoutes.logout cfg users2 (Some refresh) later)).
    assert (Hne : refresh <> ""%string) by (eapply jwt_sign_truthy; eassumption).
    assert (Hgone : User.hasRefreshToken users3 (User.id u) refresh = false).
    { subst users3. rewrite (logout_store cfg users2 refresh later Hne).
      rewrite (jwt_payload_sign _ _ _ _ _ Hs). cbn [exp userId].
      destruct (Nat.leb_spec (now + expiresIn (refreshToken cfg)) later); [lia|].
      unfold users2 at 1.
      rewrite (hasRefreshToken_added users1 (User.id u) refresh _ Hw1).
      pose proof (found_id_nonzero cfg users _ _ Hr Hw) as Hid.
      apply Nat.eqb_neq in Hid. rewrite Hid. simpl.
      apply hasRefreshToken_removed. }
    split; [exact Hgone|].
    unfold AuthRoutes.refresh_token. rewrite (falsy_supplied _ Hne). cbn [str].
    rewrite (verifyRefreshToken_not_stored cfg users3 refresh later
               (mkPayload (User.id u) now (now + expiresIn (refreshToken cfg))));
      [reflexivity| |exact Hgone].
    unfold jwt_verify. rewrite (jwt_payload_sign _ _ _ _ _ Hs). cbn [exp].
    destruct (Nat.leb_spec (now + expiresIn (refreshToken cfg)) later);
      [lia|reflexivity].
Qed.

Lemma same_second_logins_share_tokens_witness :
  Scenario.login Scenario.logged_in (Some "alice"%string) (Some "secret1"%string) 4 =
    (mkResponse 200 "success" (Some "Login successful"%string)
       (LoginData Scenario.alice_access Scenario.alice_refresh
          (User.mkPublic 1 "alice" "a@x.com")),
     logged_in_twice).
Proof.
  refine (proj1 (@same_second_logins_share_tokens model_bcrypt model_jwt model_regex
                   Model.config Scenario.registered Scenario.logged_in
                   (Some "alice"%string) (Some "secret1"%string) 4
                   Scenario.alice_access Scenario.alice_refresh
                   (User.mkPublic 1 "alice" "a@x.com") _ _)).
  - exists Scenario.registration. reflexivity.
  - reflexivity.
Defined.

Example logged_in_twice_tokens :
  map User.refreshTokens logged_in_twice =
    [[Scenario.alice_refresh; Scenario.alice_refresh]].
Proof. reflexivity. Qed.

(** ** Registration followed by login *)

Lemma register_201_inv `{Bcrypt} `{EmailRegex} (users users' : User.store)
    (username email password : option string) (salt : string)
    (msg : option string) (d : data) :
  AuthRoutes.register users username email password salt =
    (mkResponse 201 "success" msg d, users') ->
  falsy username = false /\ falsy email = false /\ falsy password = false
  /\ 3 <= String.length (str username)
  /\ 6 <= String.length (str password)
  /\ emailRegex_test (str email) = true
  /\ exists pub,
       d = UserData pub
       /\ User.create users (str username) (str email) (str password) salt =
            Return (users', pub).
Proof.
  unfold AuthRoutes.register, internal_error, error.
  destruct (falsy username); [discriminate|].
  destruct (falsy email); [discriminate|].
  destruct (falsy password); [discriminate|]. simpl.
  destruct (Nat.ltb_spec (String.length (str username)) 3); [discriminate|].
  destruct (Nat.ltb_spec (String.length (str password)) 6); [discriminate|].
  destruct (emailRegex_test (str email)); simpl; [|discriminate].
  destruct (User.create users (str username) (str email) (str password) salt)
    as [[users'' pub]|e] eqn:Hc.
  - intros [= <- <- <-]. repeat split; auto. now exists pub.
  - destruct (e =? "User already exists"); discriminate.
Qed.

Lemma nonempty_of_length (s : string) (n : nat) :
  S n <= String.length s -> s <> ""%string.
Proof. intros Hl ->. simpl in Hl. lia. Qed.

(** X8. [User.create] compares usernames with usernames and emails with
    emails only.  So a username equal to the email of an earlier user is
    accepted, and from then on [findByCredentials] resolves that name to
    the earlier user: a login with it is judged against the earlier user's
    digest, answered 401 when the password does not match that digest and
    200 as the earlier user when it does. *)
Theorem username_shadowed_by_email `{Bcrypt} `{Jwt} (cfg : jwtConfig)
    (users : User.store) (earlier : User.user) (username email password salt : string) :
  In earlier users ->
  User.email earlier = username ->
  (forall v, In v users -> User.username v <> username /\ User.email v <> email) ->
  let fresh := User.mkUser (List.length users + 1) username email
                 (bcrypt_hash password 10 salt) [] in
  User.create users username email password salt =
    Return (users ++ [fresh], User.public fresh)
  /\ exists found,
       In found users
       /\ User.email found = username
       /\ User.findByCredentials (users ++ [fresh]) username = Some found
       /\ forall pass now,
            username <> ""%string -> pass <> ""%string ->
            (User.comparePassword pass (User.password found) = false ->
             AuthRoutes.login cfg (users ++ [fresh]) (Some username) (Some pass) now =
               (error 401 "Invalid credentials", users ++ [fresh]))
            /\ (forall access refresh pub users',
                  AuthRoutes.login cfg (users ++ [fresh]) (Some username) (Some pass) now =
                    (mkResponse 200 "success" (Some "Login successful"%string)
                       (LoginData access refresh pub), users') ->
                  pub = User.public found).
Proof.
  intros Hin Hmail Hfree fresh. split.
  - unfold User.create.
    destruct (find _ users) as [v|] eqn:Hv; [|reflexivity].
    apply find_some in Hv. destruct Hv as [Hv Hm]. exfalso.
    destruct (Hfree v Hv) as [Hu He].
    apply orb_true_iff in Hm. destruct Hm as [Hm|Hm]; apply String.eqb_eq in Hm;
      contradiction.
  - assert (Hsome : exists found,
              find (fun u => (User.username u =? username) || (User.email u =? username))
                users = Some found).
    { destruct (find _ users) as [v|] eqn:Hv; [now exists v|].
      pose proof (find_none _ _ Hv earlier Hin) as Hn. simpl in Hn.
      rewrite Hmail, String.eqb_refl, orb_true_r in Hn. discriminate. }
    destruct Hsome as (found & Hf). exists found.
    pose proof (find_some _ _ Hf) as [Hfin Hfm].
    assert (Hfe : User.email found = username).
    { apply orb_true_iff in Hfm. destruct Hfm as [Hm|Hm]; apply String.eqb_eq in Hm.
      - now destruct (Hfree found Hfin).
      - exact Hm. }
    assert (Hfc : User.findByCredentials (users ++ [fresh]) username = Some found).
    { unfold User.findByCredentials. now rewrite find_app_fresh, Hf. }
    split; [exact Hfin|]. split; [exact Hfe|]. split; [exact Hfc|].
    intros pass now Hname Hpass. split.
    + intros Hbad. unfold AuthRoutes.login.
      rewrite (falsy_supplied _ Hname), (falsy_supplied _ Hpass). cbn [orb str].
      now rewrite Hfc, Hbad.
    + intros access refresh pub users' Hlogin.
      destruct (login_200_inv cfg _ _ _ _ _ _ _ _ _ Hlogin)
        as (u & _ & Hu & _ & -> & _).
      cbn [str] in Hu. congruence.
Qed.

Lemma username_shadowed_by_email_witness :
  exists found,
    In found Scenario.registered
    /\ User.email found = "a@x.com"%string
    /\ User.findByCredentials
         (Scenario.registered ++ [User.mkUser 2 "a@x.com" "b@x.com" "$hunter22" []])
         "a@x.com"
       = Some found.
Proof.
  pose proof (@username_shadowed_by_email model_bcrypt model_jwt Model.config
                Scenario.registered
                (User.mkUser 1 "alice" "a@x.com" "$secret1" [])
                "a@x.com" "b@x.com" "hunter22" "salt"
                (or_introl eq_refl) eq_refl) as T.
  assert (Hfree : forall v, In v Scenario.registered ->
                    User.username v <> "a@x.com"%string
                    /\ User.email v <> "b@x.com"%string).
  { intros v [<-|[]]. split; discriminate. }
  destruct (T Hfree) as [_ (found & Hin & He & Hf & _)].
  exists found. repeat split; assumption.
Defined.

(** ** The bearer header *)

Lemma split_field (tok rest : string) :
  no_space tok = true ->
  split " "%char (tok ++ String " "%char rest) = tok :: split " "%char rest.
Proof.
  induction tok as [|c tok IH]; simpl; intros Hn; [reflexivity|].
  apply andb_true_iff in Hn. destruct Hn as [Hc Hn].
  destruct (Ascii.eqb c " "); [discriminate|]. now rewrite (IH Hn).
Qed.

Lemma split_single (tok : string) :
  no_space tok = true -> split " "%char tok = [tok].
Proof.
  induction tok as [|c tok IH]; simpl; intros Hn; [reflexivity|].
  apply andb_true_iff in Hn. destruct Hn as [Hc Hn].
  destruct (Ascii.eqb c " "); [discriminate|]. now rewrite (IH Hn).
Qed.

Lemma bearer_field (tok : string) :
  no_space tok = true ->
  nth 1 (split " "%char ("Bearer " ++ tok)) ""%string = tok.
Proof.
  intros Hn. change ("Bearer " ++ tok)%string with ("Bearer" ++ String " "%char tok)%string.
  rewrite split_field by reflexivity. now rewrite split_single.
Qed.

Lemma bearer_field_more (tok junk : string) :
  no_space tok = true ->
  nth 1 (split " "%char ("Bearer " ++ tok ++ String " "%char junk)) ""%string = tok.
Proof.
  intros Hn.
  change ("Bearer " ++ tok ++ String " "%char junk)%string
    with ("Bearer" ++ String " "%char (tok ++ String " "%char junk))%string.
  rewrite split_field by reflexivity. now rewrite split_field.
Qed.

Lemma bearer_scheme (rest : string) :
  falsy (Some ("Bearer " ++ rest)%string)
  || negb (String.prefix "Bearer " ("Bearer " ++ rest)%string) = false.
Proof.
  cbn. repeat (destruct (ascii_dec _ _) as [_|Hc]; [|now contradiction Hc]).
  now destruct rest.
Qed.

(** X9. Only the first field after [Bearer ] is looked at: whatever follows a
    further space in the header is ignored, so a header carrying a token
    and more is treated exactly as the header carrying the token alone. *)
Theorem authenticate_ignores_trailing_fields `{Jwt} (cfg : jwtConfig)
    (users : User.store) (token junk : string) (now : nat) :
  no_space token = true ->
  AuthMiddleware.authenticate cfg users
    (Some ("Bearer " ++ token ++ String " "%char junk)%string) now
  = AuthMiddleware.authenticate cfg users (Some ("Bearer " ++ token)%string) now.
Proof.
  intros Hn. unfold AuthMiddleware.authenticate.
  cbn [str]. rewrite (bearer_field token Hn), (bearer_field_more token junk Hn).
  now rewrite (bearer_scheme token), (bearer_scheme (token ++ String " "%char junk)).
Qed.

Lemma authenticate_ignores_trailing_fields_witness :
  @AuthMiddleware.authenticate model_jwt Model.config Scenario.logged_in
    (Some ("Bearer " ++ Scenario.alice_access ++ " and more")%string) 5
  = AuthMiddleware.Next (User.mkPublic 1 "alice" "a@x.com").
Proof.
  rewrite (@authenticate_ignores_trailing_fields model_jwt Model.config
             Scenario.logged_in Scenario.alice_access "and more" 5 eq_refl).
  reflexivity.
Defined.

(** ** From login to a guarded request *)

Lemma findById_own `{Bcrypt} `{Jwt} `{EmailRegex} (cfg : jwtConfig)
    (users : User.store) (u : User.user) :
  Server.reachable cfg users -> In u users ->
  User.findById users (User.id u) = Some u.
Proof.
  intros Hr Hin. destruct (reachable_well_formed cfg users Hr) as (_ & _ & _ & Hids).
  apply In_nth_error in Hin. destruct Hin as (k & Hk).
  assert (Hi : User.id u = 1 + k).
  { pose proof (map_nth_error User.id _ _ Hk) as Hm. rewrite Hids in Hm.
    assert (Hlt : k < List.length users) by (apply nth_error_Some; congruence).
    rewrite (nth_error_nth' _ 0) in Hm by (now rewrite length_seq).
    rewrite seq_nth in Hm by exact Hlt. congruence. }
  unfold User.findById. rewrite (find_id_seq users 1 _ Hids), Hi. simpl.
  now rewrite Nat.sub_0_r.
Qed.

(** X10. In a reachable store, the access token of a successful login, sent as
    [Bearer <token>], passes the guard until it expires and resolves to
    exactly the user the login answered with; from its expiry on the guard
    answers that the token has expired. *)
Theorem login_then_guarded `{Bcrypt} `{Jwt} `{EmailRegex} (cfg : jwtConfig)
    (users users' : User.store) (name pass : option string) (issued : nat)
    (access refresh : string) (pub : User.publicUser) :
  Server.reachable cfg users ->
  AuthRoutes.login cfg users name pass issued =
    (mkResponse 200 "success" (Some "Login successful"%string)
       (LoginData access refresh pub), users') ->
  no_space access = true ->
  forall now,
    AuthMiddleware.authenticate cfg users' (Some ("Bearer " ++ access)%string) now =
      if (now <? issued + expiresIn (accessToken cfg))%nat
      then AuthMiddleware.Next pub
      else AuthMiddleware.Respond
             (error 401 "Token has expired. Please refresh your token.").
Proof.
  intros Hr Hlogin Hn now.
  destruct (login_200_inv cfg _ _ _ _ _ _ _ _ _ Hlogin)
    as (u & _ & Hu & _ & -> & Ha & _ & ->).
  assert (Hin : In u users) by (apply find_some in Hu; tauto).
  pose proof (findById_own cfg users u Hr Hin) as Hown.
  unfold AuthMiddleware.authenticate. cbn [str].
  rewrite (bearer_field access Hn).
  rewrite (bearer_scheme access).
  unfold TokenUtils.verifyAccessToken, jwt_verify.
  rewrite (jwt_payload_sign _ _ _ _ _ Ha). cbn [exp userId].
  destruct (Nat.leb_spec (issued + expiresIn (accessToken cfg)) now),
           (Nat.ltb_spec now (issued + expiresIn (accessToken cfg)));
    try lia; [reflexivity|].
  cbn [TokenUtils.valid TokenUtils.v_userId negb userId].
  now rewrite (findById_added users (User.id u) refresh u Hown).
Qed.

Lemma login_then_guarded_witness :
  @AuthMiddleware.authenticate model_jwt Model.config Scenario.logged_in
    (Some ("Bearer " ++ Scenario.alice_access)%string) 18
  = AuthMiddleware.Next (User.mkPublic 1 "alice" "a@x.com").
Proof.
  refine (@login_then_guarded model_bcrypt model_jwt model_regex Model.config
            Scenario.registered Scenario.logged_in
            (Some "alice"%string) (Some "secret1"%string) 4
            Scenario.alice_access Scenario.alice_refresh
            (User.mkPublic 1 "alice" "a@x.com") _ _ _ 18).
  - exists Scenario.registration. reflexivity.
  - reflexivity.
  - reflexivity.
Defined.

(** ** What the routes guarantee about the store *)

Section Served.
Context `{Bcrypt} `{Jwt} `{EmailRegex}.
Variable cfg : jwtConfig.

Lemma step_route_effect (users : User.store) (r : Server.request) (now : nat) :
  is_route r = true -> route_effect cfg users (Server.step cfg users r now).
Proof.
  destruct r as [u e p salt|u p|t|t|h|u e p salt|i t|i t]; simpl;
    try discriminate; intros _.
  - unfold AuthRoutes.register.
    destruct (falsy u || falsy e || falsy p); [now apply Untouched|].
    destruct (Nat.ltb_spec (String.length (str u)) 3); [now apply Untouched|].
    destruct (Nat.ltb_spec (String.length (str p)) 6); [now apply Untouched|].
    destruct (emailRegex_test (str e)) eqn:Hre; simpl; [|now apply Untouched].
    destruct (User.create users (str u) (str e) (str p) salt) as [[users' pub]|err] eqn:Ec.
    + simpl. eapply Registered; eassumption.
    + destruct (err =? "User already exists"); now apply Untouched.
  - unfold AuthRoutes.login.
    destruct (falsy u || falsy p); [now apply Untouched|].
    destruct (User.findByCredentials users (str u)) as [usr|] eqn:Hu;
      [|now apply Untouched].
    destruct (negb _); [now apply Untouched|].
    destruct (TokenUtils.generateAccessToken cfg (User.id usr) now);
      [|now apply Untouched].
    unfold TokenUtils.generateRefreshToken.
    destruct (jwt_sign _ _ _ _) as [tok|] eqn:Hs; [|now apply Untouched].
    simpl. eapply LoggedIn; [exact Hu|exact Hs|reflexivity].
  - apply Untouched. apply refresh_token_store.
  - unfold AuthRoutes.logout.
    destruct (falsy t); [now apply Untouched|]. simpl.
    destruct (TokenUtils.v_userId _) as [uid|]; [|now apply Untouched].
    destruct (_ && _); [eapply LoggedOut; reflexivity|now apply Untouched].
  - now apply Untouched.
Qed.

Lemma served_ind (P : User.store -> Prop) :
  P User.empty ->
  (forall users users', P users -> route_effect cfg users users' -> P users') ->
  forall users, served cfg users -> P users.
Proof.
  intros Hempty Hstep users (trace & Hroutes & <-).
  generalize dependent User.empty.
  induction trace as [|[r now] rest IH]; simpl; intros s Hs; [assumption|].
  simpl in Hroutes. apply andb_true_iff in Hroutes. destruct Hroutes as [Hr Hrest].
  apply (IH Hrest). eapply Hstep; [exact Hs|now apply step_route_effect].
Qed.

Lemma served_reachable (users : User.store) :
  served cfg users -> Server.reachable cfg users.
Proof. intros (trace & _ & Hrun). now exists trace. Qed.

Lemma retained_In (toks : list string) (token t : string) :
  In t (retained toks token) -> In t toks \/ t = token.
Proof.
  unfold retained, push, shift. intros Hin.
  apply in_app_or in Hin. destruct Hin as [Hin|[<-|[]]]; [left|now right].
  destruct (5 <=? List.length toks)%nat; [|exact Hin].
  destruct toks; [destruct Hin|now right].
Qed.

Lemma mutate_first_Forall_matching (P : User.user -> Prop) (p : User.user -> bool)
    (f : User.user -> User.user) (users : User.store) :
  (forall u, p u = true -> P u -> P (f u)) ->
  Forall P users -> Forall P (User.mutate_first p f users).
Proof.
  intros Hf. induction 1 as [|u rest Hu Hrest IH]; simpl; [constructor|].
  destruct (p u) eqn:Ep; constructor; auto.
Qed.

Lemma served_vetted (users : User.store) :
  served cfg users -> Forall (vetted cfg) users.
Proof.
  apply served_ind; [constructor|].
  intros users0 users' Hv [->|n e p salt pub Hn Hp He Hc|name u issued tok Hu Hs ->|i t ->].
  - exact Hv.
  - apply create_Return in Hc. destruct Hc as (-> & _ & _).
    apply Forall_app. split; [exact Hv|]. constructor; [|constructor].
    intros token [].
  - unfold User.addRefreshToken. destruct (User.findById users0 (User.id u)); [|exact Hv].
    apply mutate_first_Forall_matching; [|exact Hv].
    intros w Hw Hwt. apply Nat.eqb_eq in Hw.
    unfold vetted. cbn [User.set_refreshTokens User.refreshTokens User.id].
    intros token Hin.
    apply retained_In in Hin. destruct Hin as [Hin| ->].
    + now apply Hwt.
    + exists issued. now rewrite Hw.
  - unfold User.removeRefreshToken. destruct (User.findById users0 i); [|exact Hv].
    apply mutate_first_Forall; [|exact Hv].
    intros w Hwt. unfold vetted. simpl.
    intros token Hin. apply filter_In in Hin. now apply Hwt.
Qed.

End Served.

(** X12. In a store built by serving requests, every token in a user's list
    was minted by a login of that very user: under the refresh secret it
    decodes to the user's id.  Hence no token sits in the lists of two
    users, and a stored token verifies as valid for its owner whenever it
    has not expired. *)
Theorem stored_tokens_belong_to_owner `{Bcrypt} `{Jwt} `{EmailRegex} (cfg : jwtConfig)
    (users : User.store) (u : User.user) (token : string) :
  served cfg users -> In u users -> In token (User.refreshTokens u) ->
  (exists issued,
     jwt_signed_payload token (secret (refreshToken cfg)) =
       Some (mkPayload (User.id u) issued (issued + expiresIn (refreshToken cfg)))
     /\ forall now,
          now < issued + expiresIn (refreshToken cfg) ->
          TokenUtils.verifyRefreshToken cfg users token now =
            TokenUtils.mkVerification true false (Some (User.id u)))
  /\ (forall v, In v users -> In token (User.refreshTokens v) -> v = u).
Proof.
  intros Hs Hin Htok. pose proof (served_vetted cfg users Hs) as Hv.
  rewrite Forall_forall in Hv.
  pose proof (served_reachable cfg users Hs) as Hr.
  pose proof (Hv u Hin) as Hmint.
  destruct (Hmint token Htok) as (issued & Hsig).
  pose proof (jwt_payload_sign _ _ _ _ _ Hsig) as Hpay.
  split.
  - exists issued. split; [exact Hpay|]. intros now Hnow.
    unfold TokenUtils.verifyRefreshToken, jwt_verify. rewrite Hpay. cbn [exp userId].
    destruct (Nat.leb_spec (issued + expiresIn (refreshToken cfg)) now); [lia|].
    cbn [userId]. unfold User.hasRefreshToken.
    rewrite (findById_own cfg users u Hr Hin).
    now rewrite (proj2 (UserFacts.includes_In _ _) Htok).
  - intros v Hvin Hvtok.
    pose proof (Hv v Hvin) as Hmint'.
    destruct (Hmint' token Hvtok) as (issued' & Hsig').
    pose proof (jwt_payload_sign _ _ _ _ _ Hsig') as Hpay'.
    assert (Hid : User.id v = User.id u) by congruence.
    pose proof (findById_own cfg users v Hr Hvin) as Hfv.
    rewrite Hid, (findById_own cfg users u Hr Hin) in Hfv. congruence.
Qed.

Lemma stored_tokens_belong_to_owner_witness :
  exists issued,
    Model.signed_payload Scenario.alice_refresh "refresh-secret" =
      Some (mkPayload 1 issued (issued + 60))
    /\ forall now,
         now < issued + 60 ->
         @TokenUtils.verifyRefreshToken model_jwt Model.config Scenario.logged_in
           Scenario.alice_refresh now
         = TokenUtils.mkVerification true false (Some 1).
Proof.
  refine (proj1 (@stored_tokens_belong_to_owner model_bcrypt model_jwt model_regex
                   Model.config Scenario.logged_in Scenario.alice
                   Scenario.alice_refresh _ _ _)).
  - exists Scenario.session. split; reflexivity.
  - left. reflexivity.
  - left. reflexivity.
Defined.

(** ** Sessions do not interfere *)

Lemma findById_mutate_first (j i : nat) (f : User.user -> list string)
    (users : User.store) :
  User.findById
    (User.mutate_first (fun u => (User.id u =? j)%nat)
       (fun u => User.set_refreshTokens u (f u)) users) i
  = if (i =? j)%nat
    then option_map (fun u => User.set_refreshTokens u (f u)) (User.findById users i)
    else User.findById users i.
Proof.
  unfold User.findById. induction users as [|w rest IH]; simpl.
  - now destruct (i =? j)%nat.
  - destruct (Nat.eqb_spec (User.id w) j) as [Hj|Hj]; simpl.
    + destruct (Nat.eqb_spec (User.id w) i) as [Hi|Hi].
      * replace (i =? j)%nat with true by (symmetry; apply Nat.eqb_eq; congruence).
        reflexivity.
      * destruct (Nat.eqb_spec i j) as [Hij|Hij]; [congruence|reflexivity].
    + destruct (Nat.eqb_spec (User.id w) i) as [Hi|Hi].
      * destruct (Nat.eqb_spec i j) as [Hij|Hij]; [congruence|reflexivity].
      * exact IH.
Qed.

Lemma includes_filter_other (toks : list string) (t t' : string) :
  t <> t' ->
  includes (filter (fun x => negb (x =? t')) toks) t = includes toks t.
Proof.
  intros Hne. unfold includes. induction toks as [|x toks IH]; simpl; [reflexivity|].
  destruct (String.eqb_spec x t') as [->|Hx]; simpl.
  - rewrite IH. destruct (String.eqb_spec t' t); [congruence|reflexivity].
  - now rewrite IH.
Qed.

Lemma hasRefreshToken_removed_other (users : User.store) (i j : nat) (t t' : string) :
  t <> t' ->
  User.hasRefreshToken (User.removeRefreshToken users j t') i t =
  User.hasRefreshToken users i t.
Proof.
  intros Hne. unfold User.hasRefreshToken, User.removeRefreshToken.
  destruct (User.findById users j) eqn:Hj; [|reflexivity].
  rewrite (findById_mutate_first j i
             (fun u => filter (fun x => negb (x =? t')) (User.refreshTokens u))).
  destruct (i =? j)%nat; [|reflexivity].
  destruct (User.findById users i); simpl; [|reflexivity].
  now apply includes_filter_other.
Qed.

Lemma hasRefreshToken_added_other (users : User.store) (i j : nat) (t t' : string) :
  i <> j ->
  User.hasRefreshToken (User.addRefreshToken users j t') i t =
  User.hasRefreshToken users i t.
Proof.
  intros Hne. unfold User.hasRefreshToken, User.addRefreshToken.
  destruct (User.findById users j) eqn:Hj; [|reflexivity].
  rewrite (findById_mutate_first j i
             (fun u => push (if (5 <=? List.length (User.refreshTokens u))%nat
                             then shift (User.refreshTokens u)
                             else User.refreshTokens u) t')).
  now destruct (Nat.eqb_spec i j).
Qed.

(** X13. A user's sessions are touched only by that user's own logins and by
    logouts with the very token: adding a token for one user changes
    nothing for the tokens of another, removing a token changes nothing
    for any other token, and after a logout with one token a refresh with
    a different token gets the answer it would have got before. *)
Theorem sessions_do_not_interfere `{Jwt} (cfg : jwtConfig) (users : User.store)
    (token other : string) :
  (forall i j, i <> j ->
     User.hasRefreshToken (User.addRefreshToken users j other) i token =
     User.hasRefreshToken users i token)
  /\ (token <> other ->
      (forall i j,
         User.hasRefreshToken (User.removeRefreshToken users j other) i token =
         User.hasRefreshToken users i token)
      /\ (forall now later,
            let users' := snd (AuthRoutes.logout cfg users (Some other) now) in
            AuthRoutes.refresh_token cfg users' (Some token) later =
              (fst (AuthRoutes.refresh_token cfg users (Some token) later), users'))).
Proof.
  split; [intros i j; apply hasRefreshToken_added_other|].
  intros Hne. split; [intros i j; now apply hasRefreshToken_removed_other|].
  intros now later users'.
  assert (Hsame : forall i, User.hasRefreshToken users' i token =
                            User.hasRefreshToken users i token).
  { intros i. subst users'. unfold AuthRoutes.logout.
    destruct (falsy (Some other)); [reflexivity|]. cbn [snd].
    destruct (TokenUtils.v_userId _) as [uid|]; [|reflexivity].
    destruct (_ && _); [|reflexivity].
    now apply hasRefreshToken_removed_other. }
  unfold AuthRoutes.refresh_token.
  destruct (falsy (Some token)); [reflexivity|].
  unfold TokenUtils.verifyRefreshToken.
  destruct (jwt_verify (str (Some token)) _ later) as [d|e]; cbn [str].
  - rewrite Hsame.
    destruct (User.hasRefreshToken users (userId d) token); simpl; [|reflexivity].
    now destruct (TokenUtils.generateAccessToken cfg (userId d) later).
  - simpl. now destruct (error_name e =? "TokenExpiredError").
Qed.

Lemma sessions_do_not_interfere_witness :
  User.hasRefreshToken (User.removeRefreshToken two_users 1 "t1") 1 "t2" =
  User.hasRefreshToken two_users 1 "t2".
Proof.
  refine (proj1 (proj2 (@sessions_do_not_interfere model_jwt Model.config
                          two_users "t2" "t1") _) 1 1).
  discriminate.
Defined.

(** ** The users routes *)



Example user_by_id_reads_leading_digits :
  @UsersRoutes.user_by_id model_jwt model_parseInt Model.config Scenario.logged_in
    (Some ("Bearer " ++ Scenario.alice_access)%string) 5 "1abc"
  = UsersRoutes.Shown 200 "success" (User.mkPublic 1 "alice" "a@x.com").
Proof. reflexivity. Qed.

(** ** Previews in the AI log *)

Lemma length_append (s1 s2 : string) :
  String.length (s1 ++ s2) = String.length s1 + String.length s2.
Proof. induction s1 as [|c s1 IH]; simpl; [reflexivity|now rewrite IH]. Qed.

Lemma length_substring_0 (n : nat) (s : string) :
  String.length (String.substring 0 n s) = Nat.min n (String.length s).
Proof.
  revert s. induction n as [|n IH]; intros [|c s]; simpl; try reflexivity.
  now rewrite IH.
Qed.

Lemma substring_0_all (n : nat) (s : string) :
  String.length s <= n -> String.substring 0 n s = s.
Proof.
  revert s. induction n as [|n IH]; intros [|c s]; simpl; intros Hl;
    try reflexivity; [lia|].
  rewrite IH; [reflexivity|lia].
Qed.

Lemma append_empty (s : string) : (s ++ "")%string = s.
Proof. induction s as [|c s IH]; simpl; [reflexivity|now rewrite IH]. Qed.

Lemma preview_bounded (s : string) :
  String.length (AiLogger.preview s) <= 103
  /\ (String.length s <= 100 -> AiLogger.preview s = s)
  /\ (100 < String.length s ->
      AiLogger.preview s = (String.substring 0 100 s ++ "...")%string
      /\ String.length (AiLogger.preview s) = 103).
Proof.
  unfold AiLogger.preview.
  destruct (Nat.ltb_spec 100 (String.length s)) as [Hlong|Hshort].
  - rewrite length_append, length_substring_0, Nat.min_l by lia.
    simpl String.length. split; [lia|]. split; [lia|].
    intros _. split; reflexivity.
  - rewrite append_empty, (substring_0_all 100 s Hshort).
    split; [lia|]. split; [reflexivity|lia].
Qed.

Lemma present_Some (field : option string) (s : string) :
  AiLogger.present field = Some s -> field = Some s /\ s <> ""%string.
Proof.
  destruct field as [t|]; simpl; [|discriminate].
  destruct (String.eqb_spec t ""); [discriminate|]. intros [= <-]. now split.
Qed.

Lemma last_Some {A} (l : list A) (x : A) :
  last (map Some l) None = Some x -> exists front, l = front ++ [x].
Proof.
  induction l as [|y l IH]; simpl; [discriminate|].
  destruct l as [|z l].
  - simpl. intros [= ->]. now exists [].
  - intros Hl. destruct (IH Hl) as (front & ->). now exists (y :: front).
Qed.

(** X15. Whatever text a request carries, [logModelRequest] logs at most 103
    characters of it per field.  A prompt or message preview is logged
    only for a non-empty text, together with the true length of that text:
    the text itself if it has at most 100 characters, else its first 100
    characters followed by three dots.  The last-message preview is taken
    from the last element of [messages] only, under the same rule. *)
Theorem request_log_previews (number : Type) (truthy : number -> bool)
    (operation : string) (requestData : option (AiLogger.requestData number))
    (modelName : string) (sessionId : option string) (now : string) :
  let log := snd (AiLogger.logModelRequest number truthy operation requestData
                    modelName sessionId now) in
  let shortened (s p : string) :=
    s <> ""%string
    /\ String.length p <= 103
    /\ (String.length s <= 100 -> p = s)
    /\ (100 < String.length s -> p = (String.substring 0 100 s ++ "...")%string) in
  (forall p, AiLogger.promptPreview number log = Some p ->
     exists d s, requestData = Some d /\ AiLogger.prompt number d = Some s
                 /\ AiLogger.promptLength number log = Some (String.length s)
                 /\ shortened s p)
  /\ (forall p, AiLogger.messagePreview number log = Some p ->
        exists d s, requestData = Some d /\ AiLogger.message number d = Some s
                    /\ AiLogger.messageLength number log = Some (String.length s)
                    /\ shortened s p)
  /\ (forall p, AiLogger.lastMessagePreview number log = Some p ->
        exists d earlier lastMsg s,
          requestData = Some d
          /\ AiLogger.messages number d = Some (earlier ++ [lastMsg])
          /\ AiLogger.messagesCount number log = Some (S (List.length earlier))
          /\ AiLogger.content lastMsg = Some s
          /\ shortened s p).
Proof.
  intros log shortened.
  assert (Hshort : forall s, s <> ""%string -> shortened s (AiLogger.preview s)).
  { intros s Hs. destruct (preview_bounded s) as (Hb & Hsame & Hcut).
    repeat split; auto. intros Hl. now destruct (Hcut Hl). }
  subst log. unfold AiLogger.logModelRequest. cbn [snd].
  destruct requestData as [d|]; cbn.
  2:{ repeat split; intros p Hp; discriminate Hp. }
  split; [|split].
  - intros p Hp. destruct (AiLogger.present (AiLogger.prompt number d)) as [s|] eqn:Hs;
      [|discriminate]. simpl in Hp. injection Hp as <-.
    apply present_Some in Hs. destruct Hs as [Hs Hne].
    exists d, s. repeat split; auto; now apply Hshort.
  - intros p Hp. destruct (AiLogger.present (AiLogger.message number d)) as [s|] eqn:Hs;
      [|discriminate]. simpl in Hp. injection Hp as <-.
    apply present_Some in Hs. destruct Hs as [Hs Hne].
    exists d, s. repeat split; auto; now apply Hshort.
  - intros p Hp. destruct (AiLogger.messages number d) as [l|] eqn:Hl; [|discriminate].
    destruct (last (map Some l) None) as [lastMsg|] eqn:Hlast; [|discriminate].
    apply last_Some in Hlast. destruct Hlast as (earlier & ->).
    destruct (AiLogger.present (AiLogger.content lastMsg)) as [s|] eqn:Hs;
      [|discriminate]. simpl in Hp. injection Hp as <-.
    apply present_Some in Hs. destruct Hs as [Hs Hne].
    exists d, earlier, lastMsg, s.
    split; [reflexivity|]. split; [exact Hl|].
    split; [simpl; rewrite length_app; simpl; f_equal; lia|].
    split; [exact Hs|now apply Hshort].
Qed.

Example request_log_short_prompt :
  AiLogger.promptPreview nat
    (snd (AiLogger.logModelRequest nat (fun n => negb (n =? 0)%nat) "generate"
            (Some (AiLogger.mkRequestData nat (Some "Say hello"%string) None None
                     (Some 0) None None None))
            "gemini-pro" None "2025-01-01T00:00:00.000Z"))
  = Some "Say hello"%string.
Proof. reflexivity. Qed.

(** ** Nothing is granted without proof *)

(** X16. The three places that grant something grant it only on proof.  A
    login answers 200 only when the name resolves to a stored user whose
    digest matches the password, and then names that user and hands out
    tokens signed for that user's id.  A refresh answers 200 only for a
    supplied token that verifies under the refresh secret, is unexpired and
    is stored for its subject, and the access token it returns is signed
    for that subject.  The guard lets a request through only with a token
    that verifies under the access secret, is unexpired and whose subject
    is a stored user, and passes on that user's public view. *)
Theorem grants_require_proof `{Bcrypt} `{Jwt} (cfg : jwtConfig) (users : User.store)
    (now : nat) :
  (forall name pass msg access refresh pub users',
     AuthRoutes.login cfg users name pass now =
       (mkResponse 200 "success" msg (LoginData access refresh pub), users') ->
     exists u,
       User.findByCredentials users (str name) = Some u
       /\ bcrypt_compare (str pass) (User.password u) = true
       /\ pub = User.public u
       /\ jwt_signed_payload access (secret (accessToken cfg)) =
            Some (mkPayload (User.id u) now (now + expiresIn (accessToken cfg)))
       /\ jwt_signed_payload refresh (secret (refreshToken cfg)) =
            Some (mkPayload (User.id u) now (now + expiresIn (refreshToken cfg))))
  /\ (forall field msg access users',
        AuthRoutes.refresh_token cfg users field now =
          (mkResponse 200 "success" msg (AccessData access), users') ->
        exists token decoded,
          field = Some token
          /\ jwt_signed_payload token (secret (refreshToken cfg)) = Some decoded
          /\ now < exp decoded
          /\ User.hasRefreshToken users (userId decoded) token = true
          /\ jwt_signed_payload access (secret (accessToken cfg)) =
               Some (mkPayload (userId decoded) now (now + expiresIn (accessToken cfg)))
          /\ users' = users)
  /\ (forall authHeader me,
        AuthMiddleware.authenticate cfg users authHeader now = AuthMiddleware.Next me ->
        exists header decoded u,
          authHeader = Some header
          /\ String.prefix "Bearer " header = true
          /\ jwt_signed_payload (nth 1 (split " "%char header) ""%string)
               (secret (accessToken cfg)) = Some decoded
          /\ now < exp decoded
          /\ User.findById users (userId decoded) = Some u
          /\ me = User.public u).
Proof.
  split; [|split].
  - intros name pass msg access refresh pub users' Hlogin.
    destruct (login_200_inv cfg _ _ _ _ _ _ _ _ _ Hlogin)
      as (u & _ & Hu & Hp & -> & Ha & Hr & _).
    exists u. repeat split; auto; now apply jwt_payload_sign.
  - intros field msg access users'.
    unfold AuthRoutes.refresh_token, internal_error, error.
    destruct field as [token|]; [|discriminate]. simpl falsy. cbn [str].
    destruct (token =? ""); [discriminate|].
    unfold TokenUtils.verifyRefreshToken, jwt_verify.
    destruct (jwt_signed_payload token _) as [d|] eqn:Hd; [|discriminate].
    destruct (Nat.leb_spec (exp d) now); [discriminate|].
    destruct (User.hasRefreshToken users (userId d) token) eqn:Hs; simpl;
      [|discriminate].
    destruct (TokenUtils.generateAccessToken cfg (userId d) now) as [a|] eqn:Ha;
      [|discriminate].
    intros [= _ <- <-]. exists token, d. repeat split; auto.
    now apply jwt_payload_sign.
  - intros authHeader me. unfold AuthMiddleware.authenticate, error.
    destruct authHeader as [header|]; [|discriminate]. cbn [str].
    destruct (falsy (Some header)); [discriminate|]. simpl orb.
    destruct (String.prefix "Bearer " header) eqn:Hb; simpl negb; [|discriminate].
    unfold TokenUtils.verifyAccessToken, jwt_verify.
    destruct (jwt_signed_payload _ _) as [d|] eqn:Hd; [|discriminate].
    destruct (Nat.leb_spec (exp d) now); [discriminate|]. simpl.
    destruct (User.findById users (userId d)) as [u|] eqn:Hu; [|discriminate].
    intros [= <-]. exists header, d, u. repeat split; auto.
Qed.

(** * Overlapping registrations *)

(** A call that nothing overlaps is the two halves on one store. *)
Lemma create_atomic `{Bcrypt} (users : User.store)
    (username email password salt : string) :
  User.create users username email password salt =
    match Overlap.create_check users username email with
    | Return _ => Return (Overlap.create_resume users username email password salt)
    | Throw e => Throw e
    end.
Proof.
  unfold User.create, Overlap.create_check, Overlap.create_resume.
  now destruct (find _ users).
Qed.

Lemma register_atomic `{Bcrypt} `{EmailRegex} (users : User.store)
    (username email password : option string) (salt : string) :
  AuthRoutes.register users username email password salt =
    match Overlap.register_begin users username email password with
    | Overlap.Answered r => (r, users)
    | Overlap.Awaiting n e p => Overlap.register_resume users n e p salt
    end.
Proof.
  unfold AuthRoutes.register, Overlap.register_begin, Overlap.register_resume.
  destruct (falsy username || falsy email || falsy password); [reflexivity|].
  destruct (String.length (str username) <? 3)%nat; [reflexivity|].
  destruct (String.length (str password) <? 6)%nat; [reflexivity|].
  destruct (negb (emailRegex_test (str email))); [reflexivity|].
  rewrite create_atomic.
  destruct (Overlap.create_check users (str username) (str email)) as [[]|e].
  - now destruct (Overlap.create_resume _ _ _ _ _).
  - now destruct (e =? "User already exists").
Qed.

Lemma create_check_passes (users : User.store) (username email : string) :
  Overlap.create_check users username email = Return tt <->
  forall v, In v users -> User.username v <> username /\ User.email v <> email.
Proof.
  unfold Overlap.create_check. split.
  - destruct (find _ users) eqn:Ef; [discriminate|]. intros _ v Hv.
    pose proof (find_none _ _ Ef v Hv) as Hn. simpl in Hn.
    apply orb_false_iff in Hn. destruct Hn as [Hu He].
    split; now apply String.eqb_neq.
  - intros Hfree. destruct (find _ users) as [v|] eqn:Ef; [|reflexivity].
    apply find_some in Ef. destruct Ef as [Hv Hm]. destruct (Hfree v Hv) as [Hu He].
    apply orb_true_iff in Hm. destruct Hm as [Hm|Hm]; apply String.eqb_eq in Hm;
      contradiction.
Qed.

Lemma effect_ids `{Bcrypt} (users users' : User.store) :
  ids_in_order users -> effect users users' -> ids_in_order users'.
Proof.
  unfold ids_in_order.
  intros Hid [->|n e p salt pub Hc|i t ->|i t ->].
  - exact Hid.
  - apply create_Return in Hc. destruct Hc as (-> & _ & _).
    rewrite map_app, length_app, Hid. simpl.
    rewrite Nat.add_1_r at 2. rewrite seq_S. simpl. now rewrite Nat.add_1_r.
  - assert (Hids : map User.id (User.addRefreshToken users i t) = map User.id users)
      by (now apply addRefreshToken_map).
    rewrite Hids, Hid. f_equal.
    now rewrite <- (length_map User.id users), <- Hids, length_map.
  - assert (Hids : map User.id (User.removeRefreshToken users i t) = map User.id users)
      by (now apply removeRefreshToken_map).
    rewrite Hids, Hid. f_equal.
    now rewrite <- (length_map User.id users), <- Hids, length_map.
Qed.

Lemma create_resume_ids `{Bcrypt} (users : User.store)
    (username email password salt : string) :
  ids_in_order users ->
  ids_in_order (fst (Overlap.create_resume users username email password salt)).
Proof.
  unfold ids_in_order, Overlap.create_resume, push. simpl. intros Hid.
  rewrite map_app, length_app, Hid. simpl.
  rewrite Nat.add_1_r at 2. rewrite seq_S. simpl. now rewrite Nat.add_1_r.
Qed.

(** Whatever overlaps, ids count up from 1 in the order of the array. *)
Lemma overlap_ids `{Bcrypt} `{Jwt} `{EmailRegex} (cfg : jwtConfig)
    (users : User.store) :
  Overlap.reachable cfg users -> ids_in_order users.
Proof.
  intros (trace & <-).
  assert (Hinit : ids_in_order (Overlap.users Overlap.initial)) by reflexivity.
  generalize dependent Overlap.initial.
  induction trace as [|ev rest IH]; simpl; intros st Hst; [exact Hst|].
  apply IH. destruct ev as [r now|u e p|k salt]; simpl.
  - eapply effect_ids; [exact Hst|apply step_effect].
  - now destruct (Overlap.register_begin (Overlap.users st) u e p).
  - destruct (nth_error (Overlap.awaiting st) k) as [[[n e] p]|]; [|exact Hst].
    exact (create_resume_ids (Overlap.users st) n e p salt Hst).
Qed.

Lemma server_reachable_overlap `{Bcrypt} `{Jwt} `{EmailRegex} (cfg : jwtConfig)
    (users : User.store) :
  Server.reachable cfg users -> Overlap.reachable cfg users.
Proof.
  intros (trace & <-). exists (map (fun e => Overlap.Serve (fst e) (snd e)) trace).
  change User.empty with (Overlap.users Overlap.initial).
  generalize Overlap.initial.
  induction trace as [|[r now] rest IH]; intros st; simpl; [reflexivity|].
  now rewrite IH.
Qed.

Lemma remove_nth_middle {A} (l r : list A) (x : A) :
  Overlap.remove_nth (List.length l) (l ++ x :: r) = l ++ r.
Proof. induction l as [|y l IH]; simpl; [reflexivity|now rewrite IH]. Qed.

Lemma nth_error_middle {A} (l r : list A) (x : A) :
  nth_error (l ++ x :: r) (List.length l) = Some x.
Proof. induction l as [|y l IH]; simpl; [reflexivity|exact IH]. Qed.

Lemma step_begin_awaiting `{Bcrypt} `{Jwt} `{EmailRegex} (cfg : jwtConfig)
    (st : Overlap.state) (u e p : option string) (n e' p' : string) :
  Overlap.register_begin (Overlap.users st) u e p = Overlap.Awaiting n e' p' ->
  Overlap.step cfg st (Overlap.Begin u e p) =
    Overlap.mkState (Overlap.users st) (Overlap.awaiting st ++ [(n, e', p')]).
Proof. intros Hb. simpl. now rewrite Hb. Qed.

Lemma step_settle `{Bcrypt} `{Jwt} `{EmailRegex} (cfg : jwtConfig)
    (st : Overlap.state) (k : nat) (salt n e p : string) :
  nth_error (Overlap.awaiting st) k = Some (n, e, p) ->
  Overlap.step cfg st (Overlap.Settle k salt) =
    Overlap.mkState (snd (Overlap.register_resume (Overlap.users st) n e p salt))
      (Overlap.remove_nth k (Overlap.awaiting st)).
Proof. intros Hk. simpl. now rewrite Hk. Qed.

(** C7, on the code.  [User.create] checks for an existing user before it
    awaits the hash and pushes after it.  Two registrations of the same
    username and email, the second begun while the first waits for its
    hash, therefore both pass the check, are both answered 201 and are
    both stored: the store then holds two users with one username and one
    email, against the uniqueness the check is there to keep.  Begun after
    the first has settled, the second is refused as the claim says. *)
Theorem overlapping_registrations_duplicate `{Bcrypt} `{Jwt} `{EmailRegex}
    (cfg : jwtConfig) (st : Overlap.state)
    (username email password1 password2 salt1 salt2 : string) :
  Overlap.register_begin (Overlap.users st) (Some username) (Some email) (Some password1)
    = Overlap.Awaiting username email password1 ->
  Overlap.register_begin (Overlap.users st) (Some username) (Some email) (Some password2)
    = Overlap.Awaiting username email password2 ->
  let first := Overlap.register_resume (Overlap.users st) username email password1 salt1 in
  let second := Overlap.register_resume (snd first) username email password2 salt2 in
  let waiting := List.length (Overlap.awaiting st) in
  Overlap.run cfg st
    [Overlap.Begin (Some username) (Some email) (Some password1);
     Overlap.Begin (Some username) (Some email) (Some password2);
     Overlap.Settle waiting salt1;
     Overlap.Settle waiting salt2]
  = Overlap.mkState (snd second) (Overlap.awaiting st)
  /\ statusCode (fst first) = 201
  /\ statusCode (fst second) = 201
  /\ snd second =
       Overlap.users st ++
       [User.mkUser (List.length (Overlap.users st) + 1) username email
          (bcrypt_hash password1 10 salt1) [];
        User.mkUser (List.length (Overlap.users st) + 2) username email
          (bcrypt_hash password2 10 salt2) []]
  /\ ~ NoDup (map User.username (snd second))
  /\ ~ NoDup (map User.email (snd second))
  /\ Overlap.register_begin (snd first) (Some username) (Some email) (Some password2)
       = Overlap.Answered (error 400 "Username or email already in use").
Proof.
  intros Hb1 Hb2 first second waiting.
  assert (Hsecond : snd second =
            Overlap.users st ++
            [User.mkUser (List.length (Overlap.users st) + 1) username email
               (bcrypt_hash password1 10 salt1) [];
             User.mkUser (List.length (Overlap.users st) + 2) username email
               (bcrypt_hash password2 10 salt2) []]).
  { subst second first. unfold Overlap.register_resume, Overlap.create_resume, push.
    simpl. rewrite length_app, <- app_assoc. simpl.
    now rewrite <- Nat.add_assoc. }
  split; [|split; [reflexivity|split; [reflexivity|split; [exact Hsecond|]]]].
  - cbn [Overlap.run].
    rewrite (step_begin_awaiting cfg st _ _ _ _ _ _ Hb1).
    rewrite (step_begin_awaiting cfg
               (Overlap.mkState (Overlap.users st)
                  (Overlap.awaiting st ++ [(username, email, password1)]))
               _ _ _ _ _ _ Hb2).
    cbn [Overlap.users Overlap.awaiting]. subst waiting.
    rewrite <- app_assoc. simpl app.
    rewrite (step_settle cfg _ _ salt1 username email password1)
      by apply nth_error_middle.
    cbn [Overlap.users Overlap.awaiting]. rewrite remove_nth_middle.
    rewrite (step_settle cfg _ _ salt2 username email password2)
      by apply nth_error_middle.
    cbn [Overlap.users Overlap.awaiting].
    now rewrite remove_nth_middle, app_nil_r.
  - rewrite Hsecond, !map_app. simpl. repeat split.
    + intros Hnd. apply NoDup_remove_2 in Hnd. apply Hnd.
      apply in_or_app. right. now left.
    + intros Hnd. apply NoDup_remove_2 in Hnd. apply Hnd.
      apply in_or_app. right. now left.
    + unfold Overlap.register_begin in *.
      destruct (falsy (Some username) || falsy (Some email) || falsy (Some password2));
        [discriminate|].
      destruct (String.length (str (Some username)) <? 3)%nat; [discriminate|].
      destruct (String.length (str (Some password2)) <? 6)%nat; [discriminate|].
      destruct (negb (emailRegex_test (str (Some email)))); [discriminate|].
      subst first. unfold Overlap.register_resume, Overlap.create_resume,
        Overlap.create_check, push. simpl.
      rewrite find_app_fresh. destruct (find _ (Overlap.users st)); [reflexivity|].
      simpl. now rewrite String.eqb_refl.
Qed.

(** C7 at work: two registrations of alice, the second begun before the
    first has its hash. *)
Lemma overlapping_registrations_duplicate_witness :
  @Overlap.run model_bcrypt model_jwt model_regex Model.config Overlap.initial
    [Overlap.Begin (Some "alice"%string) (Some "a@x.com"%string) (Some "secret1"%string);
     Overlap.Begin (Some "alice"%string) (Some "a@x.com"%string) (Some "secret2"%string);
     Overlap.Settle 0 "salt1";
     Overlap.Settle 0 "salt2"]
  = Overlap.mkState
      [User.mkUser 1 "alice" "a@x.com" "$secret1" [];
       User.mkUser 2 "alice" "a@x.com" "$secret2" []]
      [].
Proof.
  refine (proj1 (@overlapping_registrations_duplicate model_bcrypt model_jwt
                   model_regex Model.config Overlap.initial
                   "alice" "a@x.com" "secret1" "secret2" "salt1" "salt2" _ _)).
  - reflexivity.
  - reflexivity.
Defined.

Example sequential_registrations_refused :
  fst (@AuthRoutes.register model_bcrypt model_regex Scenario.registered
         (Some "alice"%string) (Some "a@x.com"%string) (Some "secret2"%string) "salt2")
  = error 400 "Username or email already in use".
Proof. reflexivity. Qed.

(** * Login with a password that is not a string *)

(** On requests whose password is a string or missing, the route is
    [AuthRoutes.login]. *)
Lemma login_of_strings `{Bcrypt} `{Jwt} (cfg : jwtConfig) (users : User.store)
    (name pass : option string) (now : nat) :
  Untyped.login cfg users name (Untyped.of_field pass) now =
  AuthRoutes.login cfg users name pass now.
Proof.
  unfold Untyped.login, AuthRoutes.login.
  destruct pass as [p|]; simpl.
  - destruct (falsy name); simpl; [reflexivity|].
    destruct (p =? ""); simpl; [reflexivity|].
    now destruct (User.findByCredentials users (str name)).
  - now rewrite orb_true_r.
Qed.

(** C6, on the code.  The route tests only that the password is truthy.
    With a truthy password that is not a string, [bcrypt.compare] is
    reached only when the user exists; it rejects such an argument and the
    [catch] answers 500, whereas a name that matches no user is answered
    401 [Invalid credentials].  The two failures are therefore told apart,
    and with them whether the user exists. *)
Theorem nonstring_password_reveals_user `{Bcrypt} `{Jwt} (cfg : jwtConfig)
    (users : User.store) (name other : string) (known : User.user) (now : nat) :
  name <> ""%string -> other <> ""%string ->
  User.findByCredentials users name = Some known ->
  User.findByCredentials users other = None ->
  Untyped.login cfg users (Some name) (Untyped.NonString true) now =
    (error 500 "Internal server error", users)
  /\ Untyped.login cfg users (Some other) (Untyped.NonString true) now =
       (error 401 "Invalid credentials", users)
  /\ fst (Untyped.login cfg users (Some name) (Untyped.NonString true) now) <>
     fst (Untyped.login cfg users (Some other) (Untyped.NonString true) now).
Proof.
  intros Hname Hother Hknown Hnone.
  assert (E1 : Untyped.login cfg users (Some name) (Untyped.NonString true) now =
               (error 500 "Internal server error", users)).
  { unfold Untyped.login. rewrite (falsy_supplied _ Hname). simpl.
    now rewrite Hknown. }
  assert (E2 : Untyped.login cfg users (Some other) (Untyped.NonString true) now =
               (error 401 "Invalid credentials", users)).
  { unfold Untyped.login. rewrite (falsy_supplied _ Hother). simpl.
    now rewrite Hnone. }
  split; [exact E1|]. split; [exact E2|].
  rewrite E1, E2. discriminate.
Qed.

(** C6 at work: the password [123] for alice and for nobody. *)
Lemma nonstring_password_reveals_user_witness :
  fst (@Untyped.login model_bcrypt model_jwt Model.config Scenario.registered
         (Some "alice"%string) (Untyped.NonString true) 4) <>
  fst (@Untyped.login model_bcrypt model_jwt Model.config Scenario.registered
         (Some "nobody"%string) (Untyped.NonString true) 4).
Proof.
  refine (proj2 (proj2 (@nonstring_password_reveals_user model_bcrypt model_jwt
                          Model.config Scenario.registered "alice" "nobody"
                          (User.mkUser 1 "alice" "a@x.com" "$secret1" []) 4
                          _ _ _ _))).
  - discriminate.
  - discriminate.
  - reflexivity.
  - reflexivity.
Defined.

(** * The guard against the bearer convention *)

Lemma prefix_strip (p s : string) :
  String.prefix p s = match Guard.strip p s with Some _ => true | None => false end.
Proof.
  revert s. induction p as [|a p IH]; intros s; simpl; [now destruct s|].
  destruct s as [|b s]; [reflexivity|]. simpl.
  destruct (ascii_dec a b) as [->|Hne].
  - rewrite Ascii.eqb_refl. apply IH.
  - destruct (Ascii.eqb_spec a b); [contradiction|reflexivity].
Qed.

Lemma strip_append (p s rest : string) :
  Guard.strip p s = Some rest -> s = (p ++ rest)%string.
Proof.
  revert s. induction p as [|a p IH]; intros s; simpl.
  - now intros [= ->].
  - destruct s as [|b s]; [discriminate|].
    destruct (Ascii.eqb_spec a b) as [->|Hne]; [|discriminate].
    intros Hs. now rewrite (IH _ Hs).
Qed.

Lemma split_first_field (s : string) :
  nth 0 (split " "%char s) ""%string = Guard.first_field s.
Proof.
  induction s as [|c s IH]; simpl; [reflexivity|].
  destruct (Ascii.eqb c " "); [reflexivity|].
  destruct (split " "%char s) as [|w ws]; simpl in *; now rewrite <- IH.
Qed.

Lemma first_field_whole (token : string) :
  no_space token = true -> Guard.first_field token = token.
Proof.
  induction token as [|c token IH]; simpl; intros Hn; [reflexivity|].
  apply andb_true_iff in Hn. destruct Hn as [Hc Hn].
  destruct (Ascii.eqb c " "); [discriminate|]. now rewrite (IH Hn).
Qed.

Lemma second_field (rest : string) :
  nth 1 (split " "%char ("Bearer " ++ rest)) ""%string = Guard.first_field rest.
Proof.
  change ("Bearer " ++ rest)%string with ("Bearer" ++ String " "%char rest)%string.
  rewrite split_field by reflexivity. apply split_first_field.
Qed.

(** C8, as the code has it.  The middleware is this ordered, single-pass
    gate: a header that is missing or does not begin with [Bearer ] is
    rejected for want of a token; otherwise the text after that space, up
    to the next space or the end, is verified under the access secret,
    whatever it is and whatever follows it, an expired token being
    rejected as expired and any other failure as invalid; otherwise a
    subject that resolves to no stored user is rejected as not found;
    otherwise the request goes on with exactly the id, username and email
    of the resolved user.  On every header that is missing, does not begin
    with [Bearer ], or carries one non-empty token without spaces, this is
    the gate of the specification. *)
Theorem authenticate_is_gate_as_built `{Jwt} (cfg : jwtConfig) (users : User.store)
    (authHeader : option string) (now : nat) :
  AuthMiddleware.authenticate cfg users authHeader now =
    Guard.render (Guard.gate_as_built (secret (accessToken cfg)) users authHeader now)
  /\ (Guard.credential authHeader <> None \/ Guard.presented authHeader = None ->
      Guard.gate_as_built (secret (accessToken cfg)) users authHeader now =
      Guard.gate (secret (accessToken cfg)) users authHeader now)
  /\ (forall s,
        Guard.render s =
          Guard.render (Guard.gate_as_built (secret (accessToken cfg)) users authHeader now) ->
        s = Guard.gate_as_built (secret (accessToken cfg)) users authHeader now).
Proof.
  split; [|split; [|intros s; apply render_injective]].
  - unfold AuthMiddleware.authenticate, Guard.gate_as_built, Guard.presented.
    destruct authHeader as [h|]; [|reflexivity]. cbn [str].
    rewrite prefix_strip.
    destruct (Guard.strip "Bearer " h) as [rest|] eqn:Hs.
    + rewrite (strip_append _ _ _ Hs), second_field.
      replace (falsy (Some ("Bearer " ++ rest)%string)) with false by reflexivity.
      cbn [orb negb].
      unfold TokenUtils.verifyAccessToken, Guard.verify.
      destruct (jwt_verify _ _ now) as [decoded|[]]; simpl; try reflexivity.
      destruct (User.findById users (userId decoded)); reflexivity.
    + now rewrite orb_true_r.
  - unfold Guard.gate_as_built, Guard.gate, Guard.presented, Guard.credential.
    destruct authHeader as [h|]; [|reflexivity].
    destruct (Guard.strip "Bearer " h) as [rest|]; [|reflexivity].
    destruct (negb (rest =? "") && no_space rest) eqn:Hw.
    + intros _. apply andb_true_iff in Hw. destruct Hw as [_ Hn].
      now rewrite (first_field_whole rest Hn).
    + intros [Hc|Hp]; [congruence|discriminate].
Qed.

(** C8 as the specification words it does not hold: a header with the
    scheme and no token, malformed under the convention, is not rejected
    for want of a token but as an invalid token; and a header with a token
    and more after it, malformed as well, is let through. *)
Lemma malformed_bearer_is_not_NoToken :
  @Guard.gate model_jwt "access-secret" Scenario.logged_in (Some "Bearer "%string) 5
    = Guard.Rejected Guard.NoToken
  /\ @AuthMiddleware.authenticate model_jwt Model.config Scenario.logged_in
       (Some "Bearer "%string) 5
     = AuthMiddleware.Respond (error 401 "Invalid token.")
  /\ @Guard.gate model_jwt "access-secret" Scenario.logged_in
       (Some ("Bearer " ++ Scenario.alice_access ++ " junk")%string) 5
     = Guard.Rejected Guard.NoToken
  /\ @AuthMiddleware.authenticate model_jwt Model.config Scenario.logged_in
       (Some ("Bearer " ++ Scenario.alice_access ++ " junk")%string) 5
     = AuthMiddleware.Next (User.mkPublic 1 "alice" "a@x.com").
Proof. repeat split. Qed.

(** * Ids, positions and registration, whatever overlaps *)

(** X1. In every store the server reaches, overlapping registrations
    included, ids are positions: [findById(id)] returns the user
    registered at the position that [parseInt(id)] yields, counting from 1,
    and nothing when that is [NaN], 0 or more than the number of users.
    For an id that is a safe integer this is the position [id] itself, so
    that a user is found exactly when [1 <= id <=] the number of users. *)
Theorem findById_is_position `{Bcrypt} `{Jwt} `{EmailRegex} `{ParseInt}
    (cfg : jwtConfig) (users : User.store) (i : nat) :
  Overlap.reachable cfg users ->
  findById_number users i =
    match parseInt_number i with
    | Some (S k) => nth_error users k
    | _ => None
    end
  /\ (safe_integer i ->
      findById_number users i =
        match i with
        | 0 => None
        | S k => nth_error users k
        end
      /\ (findById_number users i <> None <-> 1 <= i <= List.length users)).
Proof.
  intros Hr. pose proof (overlap_ids cfg users Hr) as Hids.
  assert (Hpos : forall m, User.findById users m =
                           match m with 0 => None | S k => nth_error users k end).
  { intros m. unfold User.findById. rewrite (find_id_seq users 1 m Hids).
    destruct m as [|k]; simpl; [reflexivity|]. now rewrite Nat.sub_0_r. }
  split.
  - unfold findById_number. destruct (parseInt_number i) as [m|]; [|reflexivity].
    apply Hpos.
  - intros Hsafe. unfold findById_number. rewrite (parseInt_safe i Hsafe), Hpos.
    split; [reflexivity|]. destruct i as [|k].
    + split; [congruence|lia].
    + rewrite nth_error_Some. lia.
Qed.

Lemma findById_is_position_witness :
  @findById_number model_parseInt Scenario.logged_in 1 = nth_error Scenario.logged_in 0.
Proof.
  refine (proj1 (proj2 (@findById_is_position model_bcrypt model_jwt model_regex
                          model_parseInt Model.config Scenario.logged_in 1 _) _)).
  - apply server_reachable_overlap. exists Scenario.session. reflexivity.
  - reflexivity.
Defined.

(** X2. When the hash has settled, [User.create] appends to the store as it
    is then one record with id [users.length + 1], the given username and
    email, the digest of the password and no refresh token, and returns
    its public view.  In every store the server reaches, overlapping
    registrations included, [findById] then returns that record for every
    id that [parseInt] reads as the new id and answers as before for every
    other id; no token is stored for the new user, and [getAll] grows by
    the returned view at its end. *)
Theorem create_then_lookup `{Bcrypt} `{Jwt} `{EmailRegex} `{ParseInt}
    (cfg : jwtConfig) (users : User.store)
    (username email password salt : string) :
  Overlap.reachable cfg users ->
  let fresh := User.mkUser (List.length users + 1) username email
                 (bcrypt_hash password 10 salt) [] in
  let users' := fst (Overlap.create_resume users username email password salt) in
  let pub := snd (Overlap.create_resume users username email password salt) in
  users' = users ++ [fresh]
  /\ pub = User.public fresh
  /\ (forall i, parseInt_number i = Some (User.pub_id pub) ->
        findById_number users' i = Some fresh)
  /\ (forall i, parseInt_number i <> Some (User.pub_id pub) ->
        findById_number users' i = findById_number users i)
  /\ (forall token, User.hasRefreshToken users' (User.pub_id pub) token = false)
  /\ User.getAll users' = User.getAll users ++ [pub].
Proof.
  intros Hr fresh users' pub. pose proof (overlap_ids cfg users Hr) as Hids.
  assert (Hnew : User.findById users (List.length users + 1) = None).
  { unfold User.findById. rewrite (find_id_seq users 1 _ Hids).
    destruct (Nat.leb_spec 1 (List.length users + 1)); [|reflexivity].
    apply nth_error_None. lia. }
  assert (Hfind : User.findById (users ++ [fresh]) (List.length users + 1) = Some fresh).
  { unfold User.findById in *. rewrite find_app_fresh, Hnew. simpl.
    now rewrite Nat.eqb_refl. }
  subst users' pub. unfold Overlap.create_resume, push. cbn [fst snd].
  fold fresh. cbn [User.pub_id User.public User.id fresh].
  split; [reflexivity|]. split; [reflexivity|]. split; [|split; [|split]].
  - intros i Hi. unfold findById_number. now rewrite Hi.
  - intros i Hi. unfold findById_number.
    destruct (parseInt_number i) as [m|]; [|reflexivity].
    unfold User.findById. rewrite find_app_fresh.
    destruct (find _ users); [reflexivity|]. simpl.
    destruct (Nat.eqb_spec (List.length users + 1) m); [congruence|reflexivity].
  - intros token. unfold User.hasRefreshToken. now rewrite Hfind.
  - unfold User.getAll. now rewrite map_app.
Qed.

Lemma create_then_lookup_witness :
  @findById_number model_parseInt
    (Scenario.logged_in ++ [User.mkUser 2 "bob" "b@x.com" "$hunter22" []]) 2
  = Some (User.mkUser 2 "bob" "b@x.com" "$hunter22" []).
Proof.
  refine (proj1 (proj2 (proj2 (@create_then_lookup model_bcrypt model_jwt model_regex
                                 model_parseInt Model.config Scenario.logged_in
                                 "bob" "b@x.com" "hunter22" "salt" _))) 2 _).
  - apply server_reachable_overlap. exists Scenario.session. reflexivity.
  - reflexivity.
Defined.

Lemma register_begin_awaiting `{EmailRegex} (users : User.store)
    (username email password : option string) (n e p : string) :
  Overlap.register_begin users username email password = Overlap.Awaiting n e p ->
  n = str username /\ e = str email /\ p = str password
  /\ falsy username = false /\ falsy email = false /\ falsy password = false
  /\ 3 <= String.length n /\ 6 <= String.length p
  /\ emailRegex_test e = true
  /\ Overlap.create_check users n e = Return tt.
Proof.
  unfold Overlap.register_begin.
  destruct (falsy username); [discriminate|].
  destruct (falsy email); [discriminate|].
  destruct (falsy password); [discriminate|]. simpl.
  destruct (Nat.ltb_spec (String.length (str username)) 3); [discriminate|].
  destruct (Nat.ltb_spec (String.length (str password)) 6); [discriminate|].
  destruct (emailRegex_test (str email)) eqn:Hre; simpl; [|discriminate].
  destruct (Overlap.create_check users (str username) (str email)) as [[]|err] eqn:Hc.
  - intros [= <- <- <-]. repeat split; assumption.
  - destruct (err =? "User already exists"); discriminate.
Qed.

(** X7. A registration that passed the route's checks is answered 201 when
    its hash has settled, with the public view of the record pushed then.
    A login with the registered username and password is from then on
    answered 200 with that view and a fresh pair of tokens, its refresh
    token recorded for that user -- provided the digest matches its
    password, both secrets are set, and no user in the store at the moment
    of the push has that name as username or as email (which rules out a
    registration of the same name that overlapped this one).  The same
    holds for a login with the registered email. *)
Theorem register_then_login `{Bcrypt} `{Jwt} `{EmailRegex} (cfg : jwtConfig)
    (users later : User.store) (username email password salt : string) (now : nat) :
  Overlap.register_begin users (Some username) (Some email) (Some password) =
    Overlap.Awaiting username email password ->
  bcrypt_compare password (bcrypt_hash password 10 salt) = true ->
  secret (accessToken cfg) <> ""%string ->
  secret (refreshToken cfg) <> ""%string ->
  let answer := Overlap.register_resume later username email password salt in
  forall name,
    (name = username \/ name = email) ->
    (forall v, In v later -> User.username v <> name /\ User.email v <> name) ->
    exists pub access refresh,
      fst answer =
        mkResponse 201 "success" (Some "User registered successfully"%string)
          (UserData pub)
      /\ pub = User.mkPublic (List.length later + 1) username email
      /\ TokenUtils.generateAccessToken cfg (User.pub_id pub) now = Some access
      /\ jwt_sign (User.pub_id pub) (secret (refreshToken cfg))
           (expiresIn (refreshToken cfg)) now = Some refresh
      /\ AuthRoutes.login cfg (snd answer) (Some name) (Some password) now =
           (mkResponse 200 "success" (Some "Login successful"%string)
              (LoginData access refresh pub),
            User.addRefreshToken (snd answer) (User.pub_id pub) refresh).
Proof.
  intros Hbegin Hdigest Hka Hkr answer name Hname Hfree.
  destruct (register_begin_awaiting _ _ _ _ _ _ _ Hbegin)
    as (_ & _ & _ & _ & Hfe & _ & Hlu & Hlp & _ & _).
  set (fresh := User.mkUser (List.length later + 1) username email
                  (bcrypt_hash password 10 salt) []).
  assert (Hanswer : answer =
            (mkResponse 201 "success" (Some "User registered successfully"%string)
               (UserData (User.public fresh)), later ++ [fresh])) by reflexivity.
  assert (Hfind : User.findByCredentials (later ++ [fresh]) name = Some fresh).
  { unfold User.findByCredentials. rewrite find_app_fresh.
    destruct (find _ later) as [v|] eqn:Hv.
    - apply find_some in Hv. destruct Hv as [Hin Hm]. exfalso.
      destruct (Hfree v Hin) as [Hu He].
      apply orb_true_iff in Hm. destruct Hm as [Hm|Hm]; apply String.eqb_eq in Hm;
        contradiction.
    - simpl. destruct Hname as [-> | ->]; rewrite String.eqb_refl;
        [reflexivity|now rewrite orb_true_r]. }
  destruct (jwt_sign (List.length later + 1) (secret (accessToken cfg))
              (expiresIn (accessToken cfg)) now) as [access|] eqn:Ha.
  2:{ apply jwt_sign_secret in Ha. contradiction. }
  destruct (jwt_sign (List.length later + 1) (secret (refreshToken cfg))
              (expiresIn (refreshToken cfg)) now) as [refresh|] eqn:Hr.
  2:{ apply jwt_sign_secret in Hr. contradiction. }
  exists (User.public fresh), access, refresh. rewrite Hanswer. cbn [fst snd].
  split; [reflexivity|]. split; [reflexivity|].
  split; [exact Ha|]. split; [exact Hr|].
  apply (login_200 cfg (later ++ [fresh]) (Some name) (Some password) now fresh);
    try assumption.
  simpl. apply orb_false_iff. split; apply String.eqb_neq.
  - destruct Hname as [-> | ->].
    + apply (nonempty_of_length username 2). exact Hlu.
    + simpl in Hfe. now apply String.eqb_neq.
  - apply (nonempty_of_length password 5). exact Hlp.
Qed.

Lemma register_then_login_witness :
  exists pub access refresh,
    fst (@Overlap.register_resume model_bcrypt User.empty "alice" "a@x.com" "secret1" "salt")
      = mkResponse 201 "success" (Some "User registered successfully"%string) (UserData pub)
    /\ pub = User.mkPublic 1 "alice" "a@x.com"
    /\ @TokenUtils.generateAccessToken model_jwt Model.config (User.pub_id pub) 4 = Some access
    /\ Model.sign (User.pub_id pub) "refresh-secret" 60 4 = Some refresh
    /\ Scenario.login Scenario.registered (Some "alice"%string) (Some "secret1"%string) 4 =
         (mkResponse 200 "success" (Some "Login successful"%string)
            (LoginData access refresh pub),
          User.addRefreshToken Scenario.registered (User.pub_id pub) refresh).
Proof.
  refine (@register_then_login model_bcrypt model_jwt model_regex Model.config
            User.empty User.empty "alice" "a@x.com" "secret1" "salt" 4
            _ _ _ _ "alice" _ _).
  - reflexivity.
  - reflexivity.
  - discriminate.
  - discriminate.
  - left. reflexivity.
  - intros v [].
Defined.
